(** * Guitar Mastery AI: intent router, agent coordinator, conversation context

    A shallow embedding of [src/orchestrator/router.py],
    [src/orchestrator/coordinator.py] and [src/orchestrator/context.py],
    with the properties of the routing and coordination layer proved
    about it.

    Conventions of the embedding.
    - A Python [str] is a [string]; each character is read as the code
      point U+0000..U+00FF of the same number, and the character tables
      ([str.lower], [str.isspace], the classes of [re]) are those of CPython
      on that range.
    - The classifier's scores are Python floats that are only ever built
      from [0.0] by adding [3.0], [1.0] and [1.5]: every value is a small
      multiple of one half, which binary floating point represents exactly.
      They are modelled as rationals ([Q]).  The one product by [0.6] is
      compared with such a multiple, from which the exact product is either
      equal (and the float product then rounds to it) or at least one tenth
      away, so the comparison agrees with the rational one.  The
      confidence [max_score / 5.0] is modelled as the rational that the
      float quotient rounds: a multiple of one tenth, whose comparisons
      with [1.0] and [0.4] come out the same.
    - A Python exception is a value [Raise e] of the type [result]. *)

From Stdlib Require Import Bool Arith ZArith QArith Lia Lqa.
From Stdlib Require Import List String Ascii Permutation Sorted.
Import ListNotations.

Local Open Scope string_scope.
Local Open Scope list_scope.

(** ** Exceptions *)

Inductive exn : Type :=
| ValueError
| KeyError (key : string)
| IndexError
| ReError (pattern : string).

Inductive result (A : Type) : Type :=
| Ok (a : A)
| Raise (e : exn).

Arguments Ok {A} a.
Arguments Raise {A} e.

Definition rbind {A B : Type} (x : result A) (f : A -> result B) : result B :=
  match x with
  | Ok a => f a
  | Raise e => Raise e
  end.

Declare Scope result_scope.
Delimit Scope result_scope with result.
Notation "x <- c ;; k" := (rbind c (fun x => k))
  (at level 61, c at next level, right associativity) : result_scope.

(** ** Python strings *)

Module PyStr.

Definition code (c : ascii) : N := N_of_ascii c.

Definition between (lo hi : N) (c : ascii) : bool :=
  (N.leb lo (code c) && N.leb (code c) hi)%bool.

(** [str.isspace] of one character; also what [str.strip()] removes and
    what [\s] matches. *)
Definition isspace (c : ascii) : bool :=
  (between 9 13 c || between 28 32 c
   || N.eqb (code c) 133 || N.eqb (code c) 160)%bool.

(** What [\d] matches. *)
Definition isdecimal (c : ascii) : bool := between 48 57 c.

(** What [\w] matches: alphanumeric characters and the underscore. *)
Definition isword (c : ascii) : bool :=
  (between 48 57 c || between 65 90 c || N.eqb (code c) 95
   || between 97 122 c
   || N.eqb (code c) 170 || between 178 179 c || N.eqb (code c) 181
   || between 185 186 c || between 188 190 c
   || between 192 214 c || between 216 246 c || between 248 255 c)%bool.

Definition lower_char (c : ascii) : ascii :=
  if (between 65 90 c || between 192 214 c || between 216 222 c)%bool
  then ascii_of_N (code c + 32)
  else c.

(** [s.lower()] *)
Fixpoint lower (s : string) : string :=
  match s with
  | EmptyString => EmptyString
  | String c s' => String (lower_char c) (lower s')
  end.

Fixpoint lstrip (s : string) : string :=
  match s with
  | EmptyString => EmptyString
  | String c s' => if isspace c then lstrip s' else s
  end.

Fixpoint rev_onto (s acc : string) : string :=
  match s with
  | EmptyString => acc
  | String c s' => rev_onto s' (String c acc)
  end.

Definition reverse (s : string) : string := rev_onto s EmptyString.

Definition rstrip (s : string) : string := reverse (lstrip (reverse s)).

(** [s.strip()] *)
Definition strip (s : string) : string := rstrip (lstrip s).

Fixpoint startswith (p s : string) : bool :=
  match p, s with
  | EmptyString, _ => true
  | String a p', String b s' => (Ascii.eqb a b && startswith p' s')%bool
  | String _ _, EmptyString => false
  end.

(** [needle in hay] *)
Fixpoint contains (needle hay : string) : bool :=
  (startswith needle hay
   || match hay with
      | EmptyString => false
      | String _ hay' => contains needle hay'
      end)%bool.

(** [sep.join(parts)] *)
Fixpoint join (sep : string) (parts : list string) : string :=
  match parts with
  | [] => EmptyString
  | [p] => p
  | p :: rest => p ++ sep ++ join sep rest
  end.

Definition newline : string := String (ascii_of_nat 10) EmptyString.

End PyStr.

(** ** The fragment of [re] the router's patterns are written in *)

Module Re.

Inductive cclass : Type :=
| Exactly (c : ascii)      (* a literal character *)
| AnyChar                  (* [.] : anything but a newline *)
| Decimal                  (* [\d] *)
| Whitespace.              (* [\s] *)

Inductive regex : Type :=
| Empty
| Class (k : cclass)
| Star (k : cclass)        (* [k*] *)
| Boundary                 (* [\b] *)
| Seq (r1 r2 : regex)
| Or (r1 r2 : regex).

Definition postfix (k : cclass) (s : string) : option (regex * string) :=
  match s with
  | String "*" s' => Some (Star k, s')
  | _ => Some (Class k, s)
  end.

Definition unsupported (c : ascii) : bool :=
  PyStr.contains (String c EmptyString) "*+?[]{}^$\".

(** Recursive-descent parser of a pattern; [None] where the pattern lies
    outside the fragment. *)
Fixpoint parse_alt (fuel : nat) (s : string) : option (regex * string) :=
  match fuel with
  | O => None
  | S f =>
    match parse_seq f s with
    | Some (r1, String "|" s') =>
      match parse_alt f s' with
      | Some (r2, s'') => Some (Or r1 r2, s'')
      | None => None
      end
    | other => other
    end
  end
with parse_seq (fuel : nat) (s : string) : option (regex * string) :=
  match fuel with
  | O => None
  | S f =>
    match s with
    | EmptyString => Some (Empty, s)
    | String "|" _ => Some (Empty, s)
    | String ")" _ => Some (Empty, s)
    | _ =>
      match parse_atom f s with
      | Some (a, s') =>
        match parse_seq f s' with
        | Some (r, s'') => Some (Seq a r, s'')
        | None => None
        end
      | None => None
      end
    end
  end
with parse_atom (fuel : nat) (s : string) : option (regex * string) :=
  match fuel with
  | O => None
  | S f =>
    match s with
    | EmptyString => None
    | String "(" s' =>
      match parse_alt f s' with
      | Some (r, String ")" s'') => Some (r, s'')
      | _ => None
      end
    | String "\" (String "b" s') => Some (Boundary, s')
    | String "\" (String "s" s') => postfix Whitespace s'
    | String "\" (String "d" s') => postfix Decimal s'
    | String "." s' => postfix AnyChar s'
    | String c s' => if unsupported c then None else postfix (Exactly c) s'
    end
  end.

(** [re.compile(pattern)] *)
Definition compile (pattern : string) : option regex :=
  match parse_alt (2 * String.length pattern + 4) pattern with
  | Some (r, EmptyString) => Some r
  | _ => None
  end.

Definition class_ok (k : cclass) (c : ascii) : bool :=
  match k with
  | Exactly a => Ascii.eqb a c
  | AnyChar => negb (N.eqb (PyStr.code c) 10)
  | Decimal => PyStr.isdecimal c
  | Whitespace => PyStr.isspace c
  end.

Definition word_before (prev : option ascii) : bool :=
  match prev with
  | Some c => PyStr.isword c
  | None => false
  end.

Definition word_after (s : string) : bool :=
  match s with
  | String c _ => PyStr.isword c
  | EmptyString => false
  end.

Definition at_boundary (prev : option ascii) (s : string) : bool :=
  xorb (word_before prev) (word_after s).

(** The matcher: [prev] is the character before the current position,
    [s] the rest of the subject, [cont] what must match afterwards. *)
Fixpoint star_match (k : cclass) (prev : option ascii) (s : string)
    (cont : option ascii -> string -> bool) : bool :=
  match s with
  | String c s' =>
    (class_ok k c && star_match k (Some c) s' cont) || cont prev s
  | EmptyString => cont prev s
  end.

Fixpoint match_here (r : regex) (prev : option ascii) (s : string)
    (cont : option ascii -> string -> bool) : bool :=
  match r with
  | Empty => cont prev s
  | Class k =>
    match s with
    | String c s' => class_ok k c && cont (Some c) s'
    | EmptyString => false
    end
  | Star k => star_match k prev s cont
  | Boundary => at_boundary prev s && cont prev s
  | Seq r1 r2 => match_here r1 prev s (fun p t => match_here r2 p t cont)
  | Or r1 r2 => match_here r1 prev s cont || match_here r2 prev s cont
  end.

Fixpoint search_from (r : regex) (prev : option ascii) (s : string) : bool :=
  match_here r prev s (fun _ _ => true)
  || match s with
     | String c s' => search_from r (Some c) s'
     | EmptyString => false
     end.

(** [bool(re.search(pattern, s))]; an invalid pattern raises [re.error]. *)
Definition search (pattern s : string) : result bool :=
  match compile pattern with
  | Some r => Ok (search_from r None s)
  | None => Raise (ReError pattern)
  end.

End Re.

(** ** Python dicts keyed by strings

    A [dict] keeps its keys in insertion order, which [max], [sorted] and
    iteration observe, so it is an association list without repeated
    keys. *)

Module Dict.

Definition dict (V : Type) : Type := list (string * V).

Definition keys {V : Type} (d : dict V) : list string := map fst d.
Definition values {V : Type} (d : dict V) : list V := map snd d.

(** [d.get(k)] *)
Fixpoint get {V : Type} (k : string) (d : dict V) : option V :=
  match d with
  | [] => None
  | (k', v) :: d' => if String.eqb k k' then Some v else get k d'
  end.

(** [d[k] = v] *)
Fixpoint set {V : Type} (k : string) (v : V) (d : dict V) : dict V :=
  match d with
  | [] => [(k, v)]
  | (k', v') :: d' =>
    if String.eqb k k' then (k, v) :: d' else (k', v') :: set k v d'
  end.

(** [d[k]] *)
Definition lookup {V : Type} (k : string) (d : dict V) : result V :=
  match get k d with
  | Some v => Ok v
  | None => Raise (KeyError k)
  end.

(** [d.update(other)] *)
Definition update {V : Type} (d other : dict V) : dict V :=
  fold_left (fun acc kv => set (fst kv) (snd kv) acc) other d.

End Dict.

(** ** router.py *)

Module Router.

Import PyStr.

Local Open Scope Q_scope.

Definition Qltb (a b : Q) : bool := negb (Qle_bool b a).

(** The text of [reasoning]: the fixed sentence of the default decision,
    or the f-string [Pattern scores: {scores}], kept as the formatted
    value. *)
Inductive reasoning_text : Type :=
| NoStrongMatch
| PatternScores (scores : Dict.dict Q).

Record RoutingDecision : Type := {
  agent_name : string;
  confidence : Q;
  intent_category : string;
  reasoning : reasoning_text;
  is_multi_agent : bool;
  secondary_agents : option (list string)
}.

(** A [set] literal: the loop over it stops at the first member found in
    the message, so the order of iteration does not show in the result
    (lemma [entity_loop_any] below). *)
Definition LUTHIER_ENTITIES : list string := [
  "torres"; "martin"; "gibson"; "fender"; "d'angelico"; "d'aquisto";
  "benedetto"; "prs"; "paul reed smith"; "rickenbacker"; "gretsch";
  "epiphone"; "ibanez"; "yamaha"; "taylor"; "collings"; "santa cruz";
  "bourgeois"; "huss and dalton"; "lowden"; "mcpherson"; "lloyd loar";
  "leo fender"; "les paul"; "orville gibson"; "ted mccarty"; "seth lover";
  "telecaster"; "stratocaster"; "les paul"; "sg"; "es-335"; "l-5";
  "dreadnought"; "parlor guitar"; "archtop"
]%string.

Definition JAZZ_THEORY_PATTERNS : list string := [
  "\b(chord|scale|mode|arpeggio|interval|key)\b";
  "\b(dorian|mixolydian|lydian|phrygian|locrian|ionian|aeolian)\b";
  "\b(bebop|altered|diminished|whole\s*tone|pentatonic|chromatic)\b";
  "\b(ii-v-i|ii\s*v\s*i|2-5-1|two\s*five\s*one)\b";
  "\b(improvise|improvisation|solo|comping|voicing)\b";
  "\b(practice|routine|exercise|lesson|warmup|warm-up)\b";
  "\b(rut|plateau|stuck|bored|stale|uninspired)\b";
  "\b(jazz|swing|bebop|bossa|ballad|blues)\b";
  "\b(wes montgomery|joe pass|pat metheny|jim hall|grant green)\b";
  "\b(charlie parker|miles davis|john coltrane|bill evans)\b";
  "\b(quiz|test|question)\b";
  "\b(voice\s*lead|guide\s*tone|enclosure|targeting)\b"
]%string.

Definition DATA_QUERY_PATTERNS : list string := [
  "\b(how many|list all|show me|find all|search for|count)\b";
  "\b(which ones|what are all|give me all|display)\b";
  "\b(database|query|data|records|entries)\b";
  "\b(filter|sort|between|greater than|less than)\b";
  "\b(difficulty \d|category|type)\b"
]%string.

Definition HISTORY_PATTERNS : list string := [
  "\b(history|historical|evolution|origin|invented|created)\b";
  "\b(luthier|builder|craftsman|workshop|shop)\b";
  "\b(tonewood|wood|spruce|mahogany|rosewood|maple|ebony)\b";
  "\b(pickup|humbucker|single.coil|p-90|piezo|active)\b";
  "\b(construction|bracing|neck\s*joint|frets|nut|saddle)\b";
  "\b(setup|intonation|action|truss\s*rod|string\s*gauge)\b";
  "\b(repair|restore|maintenance|restring|adjust)\b"
]%string.

Definition SYSTEM_PATTERNS : list string := [
  "\b(benchmark|progress|status|health|error|bug)\b";
  "\b(documentation|changelog|log|report)\b";
  "\b(test|deploy|build|version)\b"
]%string.

Local Open Scope result_scope.

(** [scores[agent] += weight] *)
Definition add_to (agent : string) (weight : Q) (scores : Dict.dict Q)
    : result (Dict.dict Q) :=
  v <- Dict.lookup agent scores ;;
  Ok (Dict.set agent (v + weight) scores).

(** [for entity in LUTHIER_ENTITIES: if entity in message_lower: ...; break] *)
Fixpoint entity_loop (entities : list string) (message_lower : string)
    (scores : Dict.dict Q) : result (Dict.dict Q) :=
  match entities with
  | [] => Ok scores
  | entity :: rest =>
    if contains entity message_lower
    then add_to "luthier_historian" 3 scores
    else entity_loop rest message_lower scores
  end.

(** [for pattern in patterns: if re.search(pattern, message_lower):
    scores[agent] += weight] *)
Fixpoint pattern_loop (patterns : list string) (message_lower : string)
    (agent : string) (weight : Q) (scores : Dict.dict Q)
    : result (Dict.dict Q) :=
  match patterns with
  | [] => Ok scores
  | pattern :: rest =>
    hit <- Re.search pattern message_lower ;;
    scores' <- (if hit : bool then add_to agent weight scores
                else Ok scores) ;;
    pattern_loop rest message_lower agent weight scores'
  end.

(** [any(re.search(p, message_lower) for p in patterns)] *)
Fixpoint any_search (patterns : list string) (message_lower : string)
    : result bool :=
  match patterns with
  | [] => Ok false
  | pattern :: rest =>
    hit <- Re.search pattern message_lower ;;
    if hit : bool then Ok true else any_search rest message_lower
  end.

(** [max(values)]: the first of the largest values. *)
Definition py_max (values : list Q) : result Q :=
  match values with
  | [] => Raise ValueError
  | x :: rest =>
    Ok (fold_left (fun best y => if Qltb best y then y else best) rest x)
  end.

(** [max(scores, key=scores.get)]: the first key whose value is largest;
    [scores.get] of a key is the value stored with it. *)
Definition max_key (scores : Dict.dict Q) : result string :=
  match scores with
  | [] => Raise ValueError
  | kv :: rest =>
    Ok (fst (fold_left
               (fun best kv' => if Qltb (snd best) (snd kv') then kv' else best)
               rest kv))
  end.

(** [sorted(scores.items(), key=lambda x: x[1], reverse=True)]: the sort
    is stable, also with [reverse=True], so items of equal score keep
    their order in the dict. *)
Fixpoint insert_desc (x : string * Q) (l : list (string * Q))
    : list (string * Q) :=
  match l with
  | [] => [x]
  | y :: l' => if Qltb (snd x) (snd y) then y :: insert_desc x l' else x :: l
  end.

Definition sorted_desc (items : list (string * Q)) : list (string * Q) :=
  fold_right insert_desc [] items.

Definition default_decision : RoutingDecision := {|
  agent_name := "jazz_teacher";
  confidence := 0.5;
  intent_category := "general";
  reasoning := NoStrongMatch;
  is_multi_agent := false;
  secondary_agents := None
|}.

(** The scoring half of [classify_intent] (lines 89-117). *)
Definition score_message (message_lower : string) : result (Dict.dict Q) :=
  let scores := [("luthier_historian"%string, 0); ("jazz_teacher"%string, 0);
                 ("sql_expert"%string, 0); ("dev_pm"%string, 0)] in
  scores <- entity_loop LUTHIER_ENTITIES message_lower scores ;;
  scores <- pattern_loop HISTORY_PATTERNS message_lower
              "luthier_historian" 1 scores ;;
  scores <- pattern_loop JAZZ_THEORY_PATTERNS message_lower
              "jazz_teacher" 1 scores ;;
  scores <- pattern_loop DATA_QUERY_PATTERNS message_lower
              "sql_expert" 1.5 scores ;;
  pattern_loop SYSTEM_PATTERNS message_lower "dev_pm" 1 scores.

(** The deciding half of [classify_intent] (lines 119-162). *)
Definition decide (scores : Dict.dict Q) (message_lower : string)
    : result RoutingDecision :=
  max_score <- py_max (Dict.values scores) ;;
  if Qeq_bool max_score 0 then Ok default_decision
  else
    winner <- max_key scores ;;
    let confidence := if Qltb (max_score / 5) 1 then max_score / 5 else 1 in
    let sorted_scores := sorted_desc scores in
    let is_multi :=
      match sorted_scores with
      | s0 :: s1 :: _ =>
        (Qltb 0 (snd s1) && Qle_bool (snd s0 * 0.6) (snd s1))%bool
      | _ => false
      end in
    let secondary :=
      if is_multi
      then Some (map fst (filter (fun s => Qltb 0 (snd s))
                                 (tl sorted_scores)))
      else None in
    history <- any_search (firstn 2 HISTORY_PATTERNS) message_lower ;;
    let intent_map := [
      ("luthier_historian",
       if history : bool then "guitar_history" else "guitar_setup");
      ("jazz_teacher", "music_theory");
      ("sql_expert", "data_query");
      ("dev_pm", "system")
    ]%string in
    Ok {| agent_name := winner;
          confidence := confidence;
          intent_category :=
            match Dict.get winner intent_map with
            | Some category => category
            | None => "general"%string
            end;
          reasoning := PatternScores scores;
          is_multi_agent := is_multi;
          secondary_agents := secondary |}.

Definition normalise (user_message : string) : string :=
  strip (lower user_message).

Definition classify_intent (user_message : string) : result RoutingDecision :=
  let message_lower := normalise user_message in
  scores <- score_message message_lower ;;
  decide scores message_lower.

(** [needs_llm_classification] *)
Definition needs_llm_classification (decision : RoutingDecision) : bool :=
  (Qltb (confidence decision) 0.4 || is_multi_agent decision)%bool.

End Router.

(** ** Python list slices *)

Module PyList.

(** [l[start:]] *)
Definition slice_from {A : Type} (start : Z) (l : list A) : list A :=
  let len := Z.of_nat (List.length l) in
  let start' :=
    if (start <? 0)%Z then Z.max 0 (start + len) else Z.min start len in
  skipn (Z.to_nat start') l.

(** [l[:stop]] *)
Definition slice_to {A : Type} (stop : Z) (l : list A) : list A :=
  let len := Z.of_nat (List.length l) in
  let stop' :=
    if (stop <? 0)%Z then Z.max 0 (stop + len) else Z.min stop len in
  firstn (Z.to_nat stop') l.

End PyList.

(** ** context.py *)

Module Context.

(** Payload dicts (a quiz, a lesson, tool data, metadata): string keys,
    values kept as their text. *)
Definition PyDict : Type := Dict.dict string.

(** One entry of [conversation_history]. *)
Record HistoryEntry : Type := {
  role : string;
  content : string;
  agent : option string;
  timestamp : string
}.

(** The [{"role": ..., "content": ...}] dict handed to the agents. *)
Record Message : Type := {
  msg_role : string;
  msg_content : string
}.

Record ConversationContext : Type := {
  session_id : string;
  user_id : option string;
  user_skill_level : string;
  conversation_history : list HistoryEntry;
  current_topic : option string;
  active_lesson : option PyDict;
  active_quiz : option PyDict;
  agent_routing_history : list string;
  metadata : PyDict;
  created_at : string
}.

(** The dataclass defaults; the session id and the creation time come
    from [uuid.uuid4()] and the clock. *)
Definition new_context (uuid now : string) : ConversationContext := {|
  session_id := uuid;
  user_id := None;
  user_skill_level := "intermediate";
  conversation_history := [];
  current_topic := None;
  active_lesson := None;
  active_quiz := None;
  agent_routing_history := [];
  metadata := [];
  created_at := now
|}.

Definition with_history (h : list HistoryEntry) (self : ConversationContext)
    : ConversationContext := {|
  session_id := session_id self;
  user_id := user_id self;
  user_skill_level := user_skill_level self;
  conversation_history := h;
  current_topic := current_topic self;
  active_lesson := active_lesson self;
  active_quiz := active_quiz self;
  agent_routing_history := agent_routing_history self;
  metadata := metadata self;
  created_at := created_at self
|}.

Definition with_routing_history (h : list string)
    (self : ConversationContext) : ConversationContext := {|
  session_id := session_id self;
  user_id := user_id self;
  user_skill_level := user_skill_level self;
  conversation_history := conversation_history self;
  current_topic := current_topic self;
  active_lesson := active_lesson self;
  active_quiz := active_quiz self;
  agent_routing_history := h;
  metadata := metadata self;
  created_at := created_at self
|}.

Definition with_quiz (q : option PyDict) (self : ConversationContext)
    : ConversationContext := {|
  session_id := session_id self;
  user_id := user_id self;
  user_skill_level := user_skill_level self;
  conversation_history := conversation_history self;
  current_topic := current_topic self;
  active_lesson := active_lesson self;
  active_quiz := q;
  agent_routing_history := agent_routing_history self;
  metadata := metadata self;
  created_at := created_at self
|}.

Definition with_lesson (l : option PyDict) (self : ConversationContext)
    : ConversationContext := {|
  session_id := session_id self;
  user_id := user_id self;
  user_skill_level := user_skill_level self;
  conversation_history := conversation_history self;
  current_topic := current_topic self;
  active_lesson := l;
  active_quiz := active_quiz self;
  agent_routing_history := agent_routing_history self;
  metadata := metadata self;
  created_at := created_at self
|}.

(** [add_message]; [now] is the ISO text of the clock. *)
Definition add_message (now : string) (role content : string)
    (agent : option string) (self : ConversationContext)
    : ConversationContext :=
  with_history
    (conversation_history self
     ++ [{| role := role; content := content; agent := agent;
            timestamp := now |}])
    self.

Definition to_message (msg : HistoryEntry) : Message :=
  {| msg_role := role msg; msg_content := content msg |}.

(** [get_recent_messages] *)
Definition get_recent_messages (n : Z) (self : ConversationContext)
    : list Message :=
  let recent := PyList.slice_from (- n) (conversation_history self) in
  map to_message recent.

(** [record_agent_used] *)
Definition record_agent_used (agent_name : string)
    (self : ConversationContext) : ConversationContext :=
  with_routing_history (agent_routing_history self ++ [agent_name]) self.

(** The dict built by [to_dict]. *)
Record ContextDict : Type := {
  d_session_id : string;
  d_user_id : option string;
  d_user_skill_level : string;
  d_current_topic : option string;
  d_active_lesson : option PyDict;
  d_active_quiz : option PyDict;
  d_agent_history : list string;
  d_message_count : Z
}.

(** [to_dict] *)
Definition to_dict (self : ConversationContext) : ContextDict := {|
  d_session_id := session_id self;
  d_user_id := user_id self;
  d_user_skill_level := user_skill_level self;
  d_current_topic := current_topic self;
  d_active_lesson := active_lesson self;
  d_active_quiz := active_quiz self;
  d_agent_history := PyList.slice_from (-5) (agent_routing_history self);
  d_message_count := Z.of_nat (List.length (conversation_history self))
|}.

(** [start_quiz], [end_quiz], [start_lesson], [end_lesson] *)
Definition start_quiz (quiz_data : PyDict) (self : ConversationContext)
    : ConversationContext :=
  with_quiz (Some quiz_data) self.

Definition end_quiz (self : ConversationContext)
    : option PyDict * ConversationContext :=
  let quiz := active_quiz self in
  (quiz, with_quiz None self).

Definition start_lesson (lesson_data : PyDict) (self : ConversationContext)
    : ConversationContext :=
  with_lesson (Some lesson_data) self.

Definition end_lesson (self : ConversationContext)
    : option PyDict * ConversationContext :=
  let lesson := active_lesson self in
  (lesson, with_lesson None self).

End Context.

(** ** agents/base.py: what the coordinator sees of an agent *)

Module Agents.

Import Context.

Record AgentResponse : Type := {
  content : string;
  agent_name : string;
  confidence : Q;
  tools_used : list string;
  data : PyDict;
  suggestions : list string;
  tokens_input : Z;
  tokens_output : Z;
  latency_ms : Z;
  error : option string
}.

(** How an awaited, timeout-guarded call ends. *)
Inductive awaited : Type :=
| Returned (result : AgentResponse)
| TimeoutError
| Exception (text : string).

(** A pending call: how it ends under a given timeout. *)
Definition coroutine : Type := Z -> awaited.

(** [asyncio.wait_for(coro, timeout=timeout)] *)
Definition wait_for (coro : coroutine) (timeout : Z) : awaited :=
  coro timeout.

(** An agent: its [name], its [role] and its [think] method.  [think]
    reads its three arguments ([BaseAgent.think] builds a fresh message
    list from them) and is a function of them. *)
Record BaseAgent : Type := {
  name : string;
  role : string;
  think : string -> ContextDict -> list Message -> coroutine
}.

End Agents.

(** ** coordinator.py *)

Module Coordinator.

Import PyStr Context Agents.

(** The dict stored in [routing_decision]. *)
Record RoutingInfo : Type := {
  info_agent : string;
  info_confidence : Q;
  info_category : string;
  info_is_multi : bool
}.

Record OrchestratorResponse : Type := {
  content : string;
  primary_agent : string;
  all_agents_used : list string;
  session_id : string;
  suggestions : list string;
  data : PyDict;
  quiz : option PyDict;
  total_tokens_input : Z;
  total_tokens_output : Z;
  total_latency_ms : Z;
  routing_decision : option RoutingInfo     (* [None] is the default [{}] *)
}.

Record AgentCoordinator : Type := {
  agents : Dict.dict BaseAgent;
  max_agents_per_request : Z;
  timeout_seconds : Z
}.

(** The coordinator's methods run against the context they were handed
    by reference: a computation takes the context and gives back its
    result, or the exception raised, with the context as it left it. *)
Definition M (A : Type) : Type :=
  ConversationContext -> result A * ConversationContext.

Definition ret {A : Type} (a : A) : M A := fun ctx => (Ok a, ctx).

Definition bind {A B : Type} (m : M A) (f : A -> M B) : M B :=
  fun ctx =>
    match m ctx with
    | (Ok a, ctx') => f a ctx'
    | (Raise e, ctx') => (Raise e, ctx')
    end.

(** Reading from the context. *)
Definition read {A : Type} (f : ConversationContext -> A) : M A :=
  fun ctx => (Ok (f ctx), ctx).

(** Calling a mutating method of the context. *)
Definition mutate (f : ConversationContext -> ConversationContext) : M unit :=
  fun ctx => (Ok tt, f ctx).

Definition lift {A : Type} (r : result A) : M A := fun ctx => (r, ctx).

Declare Scope coord_scope.
Delimit Scope coord_scope with coord.
Notation "x <- c ;; k" := (bind c (fun x => k))
  (at level 61, c at next level, right associativity) : coord_scope.

Local Open Scope coord_scope.

(** The constructor call with only the four leading fields given. *)
Definition fallback_response (content primary_agent : string)
    (all_agents_used : list string) (session_id : string)
    : OrchestratorResponse := {|
  content := content;
  primary_agent := primary_agent;
  all_agents_used := all_agents_used;
  session_id := session_id;
  suggestions := [];
  data := [];
  quiz := None;
  total_tokens_input := 0;
  total_tokens_output := 0;
  total_latency_ms := 0;
  routing_decision := None
|}.

(** [_execute_single_agent] *)
Definition _execute_single_agent (self : AgentCoordinator) (message : string)
    (routing : Router.RoutingDecision) : M OrchestratorResponse :=
  match Dict.get (Router.agent_name routing) (agents self) with
  | None =>
    sid <- read Context.session_id ;;
    ret (fallback_response
           "I'm sorry, I couldn't find the right expert to help with that. Could you rephrase your question?"
           "orchestrator" [] sid)
  | Some agent =>
    context_dict <- read to_dict ;;
    history <- read (get_recent_messages 10) ;;
    match wait_for (think agent message context_dict history)
                   (timeout_seconds self) with
    | Returned result =>
      sid <- read Context.session_id ;;
      ret {| content := Agents.content result;
             primary_agent := Agents.agent_name result;
             all_agents_used := [Agents.agent_name result];
             session_id := sid;
             suggestions := Agents.suggestions result;
             data := Agents.data result;
             quiz := None;
             total_tokens_input := tokens_input result;
             total_tokens_output := tokens_output result;
             total_latency_ms := 0;
             routing_decision := None |}
    | TimeoutError =>
      sid <- read Context.session_id ;;
      ret (fallback_response
             "The request took too long. Please try a simpler question or try again."
             "orchestrator" [Router.agent_name routing] sid)
    | Exception _ =>
      sid <- read Context.session_id ;;
      ret (fallback_response
             "I encountered an error processing your request. Please try again."
             "orchestrator" [Router.agent_name routing] sid)
    end
  end.

(** [agent_names]: the primary agent, then the secondaries up to the cap. *)
Definition selected_names (self : AgentCoordinator)
    (routing : Router.RoutingDecision) : list string :=
  Router.agent_name routing
  :: match Router.secondary_agents routing with
     | Some (s :: rest) =>
       PyList.slice_to (max_agents_per_request self - 1) (s :: rest)
     | _ => []
     end.

(** The loop building [tasks]: one guarded call per selected name found
    in the map.  [asyncio.gather] with [return_exceptions=True] then
    gives one outcome per task, in the order of the tasks; no call sees
    another's outcome, so the list of tasks is modelled as the list of
    their outcomes. *)
Fixpoint build_tasks (self : AgentCoordinator) (message : string)
    (agent_names : list string) : M (list awaited) :=
  match agent_names with
  | [] => ret []
  | name :: rest =>
    match Dict.get name (agents self) with
    | Some agent =>
      context_dict <- read to_dict ;;
      history <- read (get_recent_messages 10) ;;
      tasks <- build_tasks self message rest ;;
      ret (wait_for (think agent message context_dict history)
                    (timeout_seconds self) :: tasks)
    | None => build_tasks self message rest
    end
  end.

(** [agent_names[i]] *)
Definition index (agent_names : list string) (i : nat) : result string :=
  match nth_error agent_names i with
  | Some name => Ok name
  | None => Raise IndexError
  end.

(** The accumulators of the aggregation loop. *)
Record aggregate : Type := {
  contents : list string;
  all_suggestions : list string;
  all_data : PyDict;
  total_tokens_in : Z;
  total_tokens_out : Z;
  agents_used : list string
}.

Definition separator : string :=
  newline ++ newline ++ "---" ++ newline ++ newline.

(** The f-string of one block: the label in bold, a colon, a newline,
    the content. *)
Definition labelled_block (agent_label content : string) : string :=
  "**" ++ agent_label ++ ":**" ++ newline ++ content.

Local Open Scope result_scope.

(** [for i, result in enumerate(results): ...] *)
Fixpoint aggregate_loop (self : AgentCoordinator) (agent_names : list string)
    (i : nat) (results : list awaited) (acc : aggregate) : result aggregate :=
  match results with
  | [] => Ok acc
  | Returned result :: rest =>
    name <- index agent_names i ;;
    agent <- Dict.lookup name (agents self) ;;
    aggregate_loop self agent_names (S i) rest
      {| contents :=
           contents acc
           ++ [labelled_block (role agent) (Agents.content result)];
         all_suggestions := all_suggestions acc ++ Agents.suggestions result;
         all_data := Dict.update (all_data acc) (Agents.data result);
         total_tokens_in := total_tokens_in acc + tokens_input result;
         total_tokens_out := total_tokens_out acc + tokens_output result;
         agents_used := agents_used acc ++ [Agents.agent_name result] |}
  | _ :: rest =>
    _ <- index agent_names i ;;           (* named in the error log *)
    aggregate_loop self agent_names (S i) rest acc
  end.

Local Open Scope coord_scope.

(** [_execute_multi_agent] *)
Definition _execute_multi_agent (self : AgentCoordinator) (message : string)
    (routing : Router.RoutingDecision) : M OrchestratorResponse :=
  let agent_names := selected_names self routing in
  results <- build_tasks self message agent_names ;;
  acc <- lift (aggregate_loop self agent_names 0 results
                 {| contents := []; all_suggestions := []; all_data := [];
                    total_tokens_in := 0; total_tokens_out := 0;
                    agents_used := [] |}) ;;
  let combined_content :=
    match contents acc with
    | [] => "I couldn't get a response. Please try again."
    | _ => join separator (contents acc)
    end in
  sid <- read Context.session_id ;;
  ret {| content := combined_content;
         primary_agent := Router.agent_name routing;
         all_agents_used := agents_used acc;
         session_id := sid;
         suggestions := PyList.slice_to 5 (all_suggestions acc);
         data := all_data acc;
         quiz := None;
         total_tokens_input := total_tokens_in acc;
         total_tokens_output := total_tokens_out acc;
         total_latency_ms := 0;
         routing_decision := None |}.

(** The truth value of [routing.secondary_agents]. *)
Definition has_secondary (routing : Router.RoutingDecision) : bool :=
  match Router.secondary_agents routing with
  | Some (_ :: _) => true
  | _ => false
  end.

(** [process_message]; [elapsed_ms] is what the clock gives for
    [int((time.time() - start_time) * 1000)]. *)
Definition process_message (self : AgentCoordinator) (message : string)
    (elapsed_ms : Z) : M OrchestratorResponse :=
  routing <- lift (Router.classify_intent message) ;;
  response <- (if (Router.is_multi_agent routing && has_secondary routing)%bool
               then _execute_multi_agent self message routing
               else _execute_single_agent self message routing) ;;
  ret {| content := content response;
         primary_agent := primary_agent response;
         all_agents_used := all_agents_used response;
         session_id := session_id response;
         suggestions := suggestions response;
         data := data response;
         quiz := quiz response;
         total_tokens_input := total_tokens_input response;
         total_tokens_output := total_tokens_output response;
         total_latency_ms := elapsed_ms;
         routing_decision :=
           Some {| info_agent := Router.agent_name routing;
                   info_confidence := Router.confidence routing;
                   info_category := Router.intent_category routing;
                   info_is_multi := Router.is_multi_agent routing |} |}.

End Coordinator.

(** ** agents/base.py: the messages [think] sends *)

Module Base.

Import Context.

(** [role in ("user", "assistant")] *)
Definition allowed_role (role : string) : bool :=
  (String.eqb role "user" || String.eqb role "assistant")%bool.

(** The list [messages] of [BaseAgent.think] at its first call of the
    model (lines 171-181): the allowed messages among the last ten of
    the history, then the message itself as a user message. *)
Definition think_messages (message : string)
    (conversation_history : option (list Message)) : list Message :=
  let messages := [] in
  let messages :=
    match conversation_history with
    | Some (m :: rest) =>
      fold_left (fun messages msg =>
                   if allowed_role (msg_role msg) then messages ++ [msg]
                   else messages)
                (PyList.slice_from (-10) (m :: rest)) messages
    | _ => messages
    end in
  messages ++ [{| msg_role := "user"; msg_content := message |}].

End Base.

(** ** api/routes/chat.py *)

Module Chat.

Import Context Agents Coordinator.

Record ChatRequest : Type := {
  message : string;
  session_id : option string;
  user_id : option string;
  preferred_agent : option string;
  skill_level : string
}.

(** The [routing_info] of the routing-only answer. *)
Record FallbackRouting : Type := {
  fr_agent : string;
  fr_confidence : Q;
  fr_category : string;
  fr_is_multi_agent : bool;
  fr_reasoning : Router.reasoning_text
}.

Inductive routing_info : Type :=
| FromCoordinator (info : option RoutingInfo)
| FromClassifier (info : FallbackRouting).

(** The [metadata] of a response of the coordinator. *)
Record ResponseMetadata : Type := {
  md_tokens_input : Z;
  md_tokens_output : Z;
  md_latency_ms : Z;
  md_all_agents_used : list string
}.

Record ChatResponse : Type := {
  r_message : string;
  r_agent_used : string;
  r_session_id : string;
  r_suggestions : list string;
  r_data : PyDict;
  r_routing_info : routing_info;
  r_metadata : option ResponseMetadata     (* [None] is the default [{}] *)
}.

(** What the endpoint answers: a response, the [HTTPException] raised
    for an error of the coordinator, or an exception it does not catch. *)
Inductive answer : Type :=
| Answered (response : ChatResponse)
| HTTPException (status_code : Z) (error : exn)
| Unhandled (error : exn).         (* an exception outside the [try] *)

(** The truth value of an optional string. *)
Definition given (s : option string) : bool :=
  match s with
  | Some (String _ _) => true
  | _ => false
  end.

(** Lines 74-88: the context of the request.  [uuid] and [created] are
    the defaults of the dataclass, [now] the time of the message. *)
Definition request_context (request : ChatRequest) (uuid created now : string)
    : ConversationContext :=
  let context :=
    {| Context.session_id :=
         match session_id request with
         | Some (String c s) => String c s
         | _ => uuid
         end;
       Context.user_id := user_id request;
       user_skill_level := skill_level request;
       conversation_history := [];
       current_topic := None;
       active_lesson := None;
       active_quiz := None;
       agent_routing_history := [];
       metadata :=
         match preferred_agent request with
         | Some (String c s) => Dict.set "preferred_agent" (String c s) []
         | _ => []
         end;
       created_at := created |} in
  add_message now "user" (message request) None context.

(** [chat]; [coordinator] is [app.state.coordinator]. *)
Definition chat (coordinator : option AgentCoordinator)
    (request : ChatRequest) (uuid created now : string) (elapsed_ms : Z)
    : answer :=
  let context := request_context request uuid created now in
  match coordinator with
  | Some coordinator =>
    match fst (process_message coordinator (message request) elapsed_ms
                               context) with
    | Ok result =>
      Answered
        {| r_message := Coordinator.content result;
           r_agent_used := primary_agent result;
           r_session_id := Coordinator.session_id result;
           r_suggestions := Coordinator.suggestions result;
           r_data := Coordinator.data result;
           r_routing_info := FromCoordinator (routing_decision result);
           r_metadata :=
             Some {| md_tokens_input := total_tokens_input result;
                     md_tokens_output := total_tokens_output result;
                     md_latency_ms := total_latency_ms result;
                     md_all_agents_used := all_agents_used result |} |}
    | Raise e => HTTPException 500 e
    end
  | None =>
    match Router.classify_intent (message request) with
    | Ok routing =>
      Answered
        {| r_message :=
             "[Routed to: " ++ Router.agent_name routing
             ++ "] Your question about '"
             ++ String.substring 0 100 (message request)
             ++ "' would be handled by the "
             ++ Router.agent_name routing
             ++ " agent. Configure your ANTHROPIC_API_KEY "
             ++ "in .env to enable full agent responses.";
           r_agent_used := Router.agent_name routing;
           r_session_id := Context.session_id context;
           r_suggestions :=
             ["Configure ANTHROPIC_API_KEY in .env for full responses";
              "Try: What scales work over a dominant 7th chord?";
              "Try: Tell me about the history of the Les Paul";
              "Try: Show me all jazz chords with difficulty 3+"];
           r_data := [];
           r_routing_info :=
             FromClassifier
               {| fr_agent := Router.agent_name routing;
                  fr_confidence := Router.confidence routing;
                  fr_category := Router.intent_category routing;
                  fr_is_multi_agent := Router.is_multi_agent routing;
                  fr_reasoning := Router.reasoning routing |};
           r_metadata := None |}
    | Raise e => Unhandled e
    end
  end.

End Chat.

(** ** Upper-cased text

    [str.upper] takes three characters of the range U+0000..U+00FF
    out of it (the micro sign to U+039C, the sharp s to two letters S,
    y with diaeresis to U+0178), so its result is a list of code points. *)

Module PyText.

Import PyStr.

Definition text : Type := list N.

(** A string as the list of its code points. *)
Definition literal (s : string) : text := map code (list_ascii_of_string s).

Definition upper_char (c : ascii) : text :=
  if between 97 122 c then [(code c - 32)%N]
  else if N.eqb (code c) 181 then [924%N]
  else if N.eqb (code c) 223 then [83%N; 83%N]
  else if (between 224 246 c || between 248 254 c)%bool
       then [(code c - 32)%N]
  else if N.eqb (code c) 255 then [376%N]
  else [code c].

(** [s.upper()] *)
Definition upper (s : string) : text :=
  flat_map upper_char (list_ascii_of_string s).

(** [s.startswith(p)] *)
Fixpoint startswith (p s : text) : bool :=
  match p, s with
  | [], _ => true
  | a :: p', b :: s' => (N.eqb a b && startswith p' s')%bool
  | _ :: _, [] => false
  end.

(** [needle in hay] *)
Fixpoint contains (needle hay : text) : bool :=
  (startswith needle hay
   || match hay with
      | [] => false
      | _ :: hay' => contains needle hay'
      end)%bool.

Fixpoint lstrip_char (x : ascii) (s : string) : string :=
  match s with
  | EmptyString => EmptyString
  | String c s' => if Ascii.eqb c x then lstrip_char x s' else s
  end.

(** [s.rstrip(x)] for a single character [x] *)
Definition rstrip_char (x : ascii) (s : string) : string :=
  reverse (lstrip_char x (reverse s)).

End PyText.

(** ** agents/sql_expert.py and db/queries.py: the guards of a query *)

Module SqlExpert.

Import PyStr PyText.

(** The dict [{"is_valid": ..., "reason": ...}]. *)
Record Validation : Type := {
  is_valid : bool;
  reason : string
}.

Definition FORBIDDEN : list string :=
  ["DROP"; "DELETE"; "UPDATE"; "INSERT"; "ALTER"; "CREATE";
   "EXEC"; "TRUNCATE"; "--"; ";--"; "/*"].

(** [for keyword in forbidden: if keyword in sql_upper: return ...] *)
Fixpoint first_forbidden (forbidden : list string) (sql_upper : text)
    : option string :=
  match forbidden with
  | [] => None
  | keyword :: rest =>
    if contains (literal keyword) sql_upper then Some keyword
    else first_forbidden rest sql_upper
  end.

(** [_validate_sql] *)
Definition _validate_sql (sql : string) : Validation :=
  let sql_upper := upper (strip sql) in
  if negb (startswith (literal "SELECT") sql_upper)
  then {| is_valid := false; reason := "Only SELECT queries are allowed" |}
  else
    match first_forbidden FORBIDDEN sql_upper with
    | Some keyword =>
      {| is_valid := false; reason := "Forbidden keyword: " ++ keyword |}
    | None => {| is_valid := true; reason := "Query passed validation" |}
    end.

End SqlExpert.

Module Queries.

Import PyStr PyText.

Definition FORBIDDEN : list string :=
  ["DROP"; "DELETE"; "UPDATE"; "INSERT"; "ALTER"; "CREATE";
   "EXEC"; "TRUNCATE"].

(** The rows of a result. *)
Definition rows : Type := list Context.PyDict.

(** A database session: what [db.execute] of a statement with its
    parameters gives, the rows or the text of the exception raised. *)
Definition session : Type := string -> Context.PyDict -> rows + string.

(** The first half of [execute_safe_select]: the statement handed to
    [db.execute], or the message of the [ValueError] raised. *)
Inductive prepared : Type :=
| Execute (statement : string)
| RaiseValueError (text : string).

Definition safe_select_statement (sql : string) : prepared :=
  let sql_upper := upper (strip sql) in
  if negb (startswith (literal "SELECT") sql_upper)
  then RaiseValueError "Only SELECT queries are allowed for user requests."
  else
    match SqlExpert.first_forbidden FORBIDDEN sql_upper with
    | Some keyword =>
      RaiseValueError ("Forbidden SQL keyword detected: " ++ keyword)
    | None =>
      if negb (contains (literal "LIMIT") sql_upper)
      then Execute (rstrip_char ";" (rstrip sql) ++ " LIMIT 50")
      else Execute sql
    end.

(** [execute_safe_select]: the rows, or the text of the exception. *)
Definition execute_safe_select (db : session) (sql : string)
    (params : option Context.PyDict) : rows + string :=
  match safe_select_statement sql with
  | RaiseValueError text => inr text
  | Execute statement =>
    db statement match params with
                 | Some (p :: ps) => p :: ps
                 | _ => []
                 end
  end.

End Queries.

Module SqlTools.

Import SqlExpert Queries.

(** The dict [_execute_query] returns. *)
Inductive query_result : Type :=
| QueryError (error : string)                 (* with [results] empty *)
| QueryRows (results : rows) (count : Z) (sql : string).

(** [SQLExpertAgent._execute_query]; [db_factory] gives the session. *)
Definition _execute_query (db_factory : option session) (sql : string)
    (params : option Context.PyDict) : query_result :=
  let validation := _validate_sql sql in
  if negb (is_valid validation) then QueryError (reason validation)
  else
    match db_factory with
    | None => QueryError "Database not connected"
    | Some db =>
      match execute_safe_select db sql params with
      | inl results =>
        QueryRows results (Z.of_nat (List.length results)) sql
      | inr e => QueryError e
      end
    end.

End SqlTools.

(** ** agents/luthier.py *)

Module Luthier.

Import PyStr Context.

(** [LuthierHistorianAgent._generate_suggestions]; [context] is not
    read. *)
Definition _generate_suggestions (content : string)
    (context : option ContextDict) : list string :=
  let suggestions : list string := [] in
  let content_lower := lower content in
  let suggestions :=
    if contains "archtop" content_lower
    then suggestions
           ++ ["Would you like to know about archtop tonewoods?"]
           ++ ["Want to hear about modern archtop builders?"]
    else suggestions in
  let suggestions :=
    if (contains "fender" content_lower
        || contains "telecaster" content_lower
        || contains "stratocaster" content_lower)%bool
    then suggestions
           ++ ["Interested in the differences between Fender body woods?"]
    else suggestions in
  let suggestions :=
    if contains "pickup" content_lower
    then suggestions
           ++ ["Want to compare single-coil vs humbucker characteristics?"]
    else suggestions in
  let suggestions :=
    if (contains "wood" content_lower
        || contains "tonewood" content_lower)%bool
    then suggestions ++ ["Should I explain how wood choice affects tone?"]
    else suggestions in
  let suggestions :=
    match suggestions with
    | [] => ["Ask me about any guitar brand or luthier";
             "Want to know about guitar construction techniques?";
             "Curious about the history of a specific guitar model?"]
    | _ :: _ => suggestions
    end in
  PyList.slice_to 3 suggestions.

End Luthier.

(** ** agents/jazz_teacher.py *)

Module JazzTeacher.

Import PyStr Context.

(** [JazzTeacherAgent._generate_suggestions]; [context] is not read. *)
Definition _generate_suggestions (content : string)
    (context : option ContextDict) : list string :=
  let suggestions : list string := [] in
  let content_lower := lower content in
  let suggestions :=
    if contains "chord" content_lower
    then suggestions
           ++ ["Want me to quiz you on chord types?"]
           ++ ["Should I show you voicings for this chord?"]
    else suggestions in
  let suggestions :=
    if (contains "scale" content_lower
        || contains "mode" content_lower)%bool
    then suggestions
           ++ ["Want a practice exercise for this scale?"]
           ++ ["Should I show you which chords this scale works over?"]
    else suggestions in
  let suggestions :=
    if (contains "solo" content_lower
        || contains "improvise" content_lower
        || contains "improvisation" content_lower)%bool
    then suggestions ++ ["Want some specific licks to practice over this?"]
    else suggestions in
  let suggestions :=
    if (contains "rut" content_lower
        || contains "plateau" content_lower
        || contains "stuck" content_lower)%bool
    then suggestions ++ ["Want a customized plateau-busting practice plan?"]
    else suggestions in
  let suggestions :=
    if (contains "standard" content_lower
        || contains "tune" content_lower)%bool
    then suggestions
           ++ ["Want me to analyze the chord changes for this tune?"]
    else suggestions in
  let suggestions :=
    match suggestions with
    | [] => ["Quiz me on jazz theory";
             "Give me a practice exercise";
             "Help me with improvisation";
             "Recommend jazz standards to learn"]
    | _ :: _ => suggestions
    end in
  PyList.slice_to 3 suggestions.

End JazzTeacher.

(** * Vocabulary of the properties *)

(** ** The vocabulary of the router's properties *)

Module RouterSpec.

Import PyStr Router.

Local Open Scope Q_scope.

(** One step of [max]: a later item replaces the best so far only when
    its score is strictly larger. *)
Definition better (best kv : string * Q) : string * Q :=
  if Qltb (snd best) (snd kv) then kv else best.

(** The pattern lies in the modelled fragment of [re]. *)
Definition compiles (pattern : string) : bool :=
  match Re.compile pattern with
  | Some _ => true
  | None => false
  end.

(** The four groups of patterns together. *)
Definition ALL_PATTERNS : list string :=
  HISTORY_PATTERNS ++ JAZZ_THEORY_PATTERNS
  ++ DATA_QUERY_PATTERNS ++ SYSTEM_PATTERNS.

(** The scores dict always has the four agents as its keys, in this
    order. *)
Definition four (l j s d : Q) : Dict.dict Q :=
  [("luthier_historian"%string, l); ("jazz_teacher"%string, j);
   ("sql_expert"%string, s); ("dev_pm"%string, d)].

(** [n] additions of [w]. *)
Fixpoint times (n : nat) (w : Q) : Q :=
  match n with
  | O => 0
  | S n' => w + times n' w
  end.

(** Some known entity occurs in the message. *)
Definition mentions_entity (message_lower : string) : bool :=
  existsb (fun entity => contains entity message_lower) LUTHIER_ENTITIES.

(** The secondary agents of a decision, [None] read as none. *)
Definition secondaries (decision : RoutingDecision) : list string :=
  match secondary_agents decision with
  | Some l => l
  | None => []
  end.

(** A message of whitespace only. *)
Fixpoint all_space (s : string) : bool :=
  match s with
  | EmptyString => true
  | String c s' => (isspace c && all_space s')%bool
  end.

(** The search of the pattern runs and finds nothing. *)
Definition no_hit (message_lower pattern : string) : bool :=
  match Re.search pattern message_lower with
  | Ok false => true
  | _ => false
  end.

(** No entity occurs in the normalised message and no pattern of any
    group matches it. *)
Definition matches_nothing (message_lower : string) : bool :=
  (negb (mentions_entity message_lower)
   && forallb (no_hit message_lower) ALL_PATTERNS)%bool.

(** The score stored for an agent. *)
Definition score_of (agent : string) (scores : Dict.dict Q) : Q :=
  match Dict.get agent scores with
  | Some v => v
  | None => 0
  end.

End RouterSpec.

(** ** The vocabulary of the context's properties *)

Module ContextSpec.

Import Context.

(** The last [k] items of a list, all of them when there are fewer. *)
Definition last_n {A : Type} (k : nat) (l : list A) : list A :=
  skipn (List.length l - k) l.

End ContextSpec.

(** ** The vocabulary of the coordinator's properties *)

Module CoordinatorSpec.

Import Context Agents Coordinator.

(** A computation that leaves the context as it found it. *)
Definition frame {A : Type} (m : M A) : Prop :=
  forall context, snd (m context) = context.

(** The guarded call of one agent. *)
Definition call (self : AgentCoordinator) (message : string)
    (context : ConversationContext) (agent : BaseAgent) : awaited :=
  wait_for (think agent message (to_dict context)
                  (get_recent_messages 10 context))
           (timeout_seconds self).

(** The name is a key of the agent map. *)
Definition present (self : AgentCoordinator) (name : string) : bool :=
  match Dict.get name (agents self) with
  | Some _ => true
  | None => false
  end.

(** The outcomes of the calls of the names found in the map, in order. *)
Fixpoint outcomes (self : AgentCoordinator) (message : string)
    (context : ConversationContext) (agent_names : list string)
    : list awaited :=
  match agent_names with
  | [] => []
  | name :: rest =>
    match Dict.get name (agents self) with
    | Some agent =>
      call self message context agent :: outcomes self message context rest
    | None => outcomes self message context rest
    end
  end.

(** The responses among the outcomes. *)
Fixpoint successes (results : list awaited) : list AgentResponse :=
  match results with
  | [] => []
  | Returned result :: rest => result :: successes rest
  | _ :: rest => successes rest
  end.

(** The accumulators before the loop. *)
Definition empty_aggregate : aggregate :=
  {| contents := []; all_suggestions := []; all_data := [];
     total_tokens_in := 0; total_tokens_out := 0; agents_used := [] |}.

(** What [all_agents_used] holds.  Multi-agent path: the names carried
    by the responses that came back.  Single-agent path: the name carried
    by the response; nothing when the agent is not in the map; and the
    agent that was attempted when its call timed out or raised. *)
Definition expected_agents_used (self : AgentCoordinator) (message : string)
    (context : ConversationContext) (routing : Router.RoutingDecision)
    : list string :=
  if Router.is_multi_agent routing
  then map Agents.agent_name
           (successes (outcomes self message context
                                (selected_names self routing)))
  else match Dict.get (Router.agent_name routing) (agents self) with
       | None => []
       | Some agent =>
         match call self message context agent with
         | Returned result => [Agents.agent_name result]
         | _ => [Router.agent_name routing]
         end
       end.

(** A slow agent: every call of it times out. *)
Definition slow_agent : BaseAgent :=
  {| name := "jazz_teacher"; role := "Jazz Guitar Teacher";
     think := fun _ _ _ _ => TimeoutError |}.

(** A coordinator whose only agent is the slow one. *)
Definition slow_coordinator : AgentCoordinator :=
  {| agents := [("jazz_teacher", slow_agent)];
     max_agents_per_request := 3; timeout_seconds := 30 |}.

(** The call of the agent stored under [name] came back with a
    response. *)
Definition call_returned (self : AgentCoordinator) (message : string)
    (context : ConversationContext) (name : string) : bool :=
  match Dict.get name (agents self) with
  | Some agent =>
    match call self message context agent with
    | Returned _ => true
    | _ => false
    end
  | None => false
  end.

(** A coordinator with an empty agent map. *)
Definition empty_coordinator (max_agents timeout : Z) : AgentCoordinator :=
  {| agents := []; max_agents_per_request := max_agents;
     timeout_seconds := timeout |}.




(** A response carrying the given name and text. *)
Definition reply (agent_name text : string) : AgentResponse :=
  {| Agents.content := text; Agents.agent_name := agent_name;
     confidence := 0.8; tools_used := []; Agents.data := [];
     Agents.suggestions := []; tokens_input := 10; tokens_output := 20;
     latency_ms := 5; error := None |}.






End CoordinatorSpec.

(** ** More vocabulary of the router's properties *)

Module RouterMoreSpec.

Import PyStr Router RouterSpec.

Local Open Scope Q_scope.

(** The agents in the order of the keys of the scores dict. *)
Definition AGENTS : list string :=
  ["luthier_historian"; "jazz_teacher"; "sql_expert"; "dev_pm"]%string.

(** The pairs of agent and category a decision can carry. *)
Definition AGENT_CATEGORIES : list (string * string) :=
  [("jazz_teacher", "general"); ("jazz_teacher", "music_theory");
   ("luthier_historian", "guitar_history");
   ("luthier_historian", "guitar_setup");
   ("sql_expert", "data_query"); ("dev_pm", "system")]%string.

(** An agent other than the winner has a positive score of at least 60%
    of the winner's. *)
Definition close_rival (winner : string) (scores : Dict.dict Q)
    (kv : string * Q) : bool :=
  (negb (String.eqb (fst kv) winner)
   && (Qltb 0 (snd kv)
       && Qle_bool (score_of winner scores * 0.6) (snd kv)))%bool.

Definition has_close_rival (winner : string) (scores : Dict.dict Q) : bool :=
  existsb (close_rival winner scores) scores.

(** The scores a decision reports; none for the default decision. *)
Definition reported_scores (decision : RoutingDecision) : Dict.dict Q :=
  match reasoning decision with
  | NoStrongMatch => []
  | PatternScores scores => scores
  end.

(** The decision was reached by scoring, not by default. *)
Definition scored (decision : RoutingDecision) : bool :=
  match reasoning decision with
  | NoStrongMatch => false
  | PatternScores _ => true
  end.

(** Descending order of score. *)
Definition descending (a b : string * Q) : Prop := snd b <= snd a.

End RouterMoreSpec.

(** ** Vocabulary of the properties of strings *)

Module PyStrSpec.

Import PyStr.

(** [rstrip] by recursion from the left: a character is dropped when it
    is whitespace and nothing is kept after it. *)
Fixpoint rstrip_rec (s : string) : string :=
  match s with
  | EmptyString => EmptyString
  | String c s' =>
    match rstrip_rec s' with
    | EmptyString => if isspace c then EmptyString else String c EmptyString
    | r => String c r
    end
  end.

End PyStrSpec.

(** ** More vocabulary of the context's properties *)

Module ContextMoreSpec.

Import Context.

(** A call of one of the mutating methods of a context. *)
Inductive method : Type :=
| AddMessage (now role content : string) (agent : option string)
| RecordAgentUsed (agent_name : string)
| StartQuiz (quiz_data : PyDict)
| EndQuiz
| StartLesson (lesson_data : PyDict)
| EndLesson.

Definition invoke (self : ConversationContext) (m : method)
    : ConversationContext :=
  match m with
  | AddMessage now role content agent =>
    add_message now role content agent self
  | RecordAgentUsed agent_name => record_agent_used agent_name self
  | StartQuiz quiz_data => start_quiz quiz_data self
  | EndQuiz => snd (end_quiz self)
  | StartLesson lesson_data => start_lesson lesson_data self
  | EndLesson => snd (end_lesson self)
  end.

(** A session: the calls made on a context, in order. *)
Definition session (calls : list method) (self : ConversationContext)
    : ConversationContext :=
  fold_left invoke calls self.

(** The history entries and the agents the calls of a session record. *)
Definition recorded_entries (calls : list method) : list HistoryEntry :=
  flat_map (fun m => match m with
                     | AddMessage now role content agent =>
                       [{| role := role; content := content; agent := agent;
                           timestamp := now |}]
                     | _ => []
                     end) calls.

Definition recorded_agents (calls : list method) : list string :=
  flat_map (fun m => match m with
                     | RecordAgentUsed agent_name => [agent_name]
                     | _ => []
                     end) calls.

End ContextMoreSpec.

(** ** More vocabulary of the coordinator's properties *)

Module CoordinatorMoreSpec.

Import Context Agents Coordinator CoordinatorSpec.

(** The sum of a list of token counts. *)
Definition total (counts : list Z) : Z := fold_right Z.add 0%Z counts.

(** The data dicts of the responses merged in order, later ones last. *)
Definition merged (responses : list AgentResponse) : PyDict :=
  fold_left Dict.update (map Agents.data responses) [].

(** What a response says of the decision it came from. *)
Definition echo (routing : Router.RoutingDecision) : RoutingInfo :=
  {| info_agent := Router.agent_name routing;
     info_confidence := Router.confidence routing;
     info_category := Router.intent_category routing;
     info_is_multi := Router.is_multi_agent routing |}.

(** A coordinator that has the jazz teacher and the SQL expert but no
    luthier. *)
Definition answering (agent_name text : string) : BaseAgent :=
  {| name := agent_name; role := agent_name;
     think := fun _ _ _ _ => Returned (reply agent_name text) |}.

Definition no_luthier : AgentCoordinator :=
  {| agents := [("jazz_teacher", answering "jazz_teacher" "Swing it.");
                ("sql_expert", answering "sql_expert" "3 rows.")];
     max_agents_per_request := 3; timeout_seconds := 30 |}.

(** Two agents whose data share the key [rows]. *)
Definition with_data (agent_name : string) (data : PyDict) : BaseAgent :=
  {| name := agent_name; role := agent_name;
     think := fun _ _ _ _ =>
       Returned {| Agents.content := "done"; Agents.agent_name := agent_name;
                   confidence := 0.9; tools_used := []; Agents.data := data;
                   Agents.suggestions := []; tokens_input := 1;
                   tokens_output := 2; latency_ms := 3; error := None |} |}.

Definition overlapping : AgentCoordinator :=
  {| agents := [("luthier_historian",
                 with_data "luthier_historian"
                           [("rows", "1"); ("wood", "spruce")]);
                ("jazz_teacher",
                 with_data "jazz_teacher" [("rows", "2")])];
     max_agents_per_request := 3; timeout_seconds := 30 |}.

Definition two_way : Router.RoutingDecision :=
  {| Router.agent_name := "luthier_historian";
     Router.confidence := 0.2;
     Router.intent_category := "guitar_history";
     Router.reasoning := Router.NoStrongMatch;
     Router.is_multi_agent := true;
     Router.secondary_agents := Some ["jazz_teacher"] |}.

End CoordinatorMoreSpec.

(** ** Vocabulary of the properties of the chat endpoint *)

Module ChatSpec.

Import Context Chat.

(** The message as [think] appends it. *)
Definition user_message (text : string) : Message :=
  {| msg_role := "user"; msg_content := text |}.

(** The request with another [preferred_agent]. *)
Definition preferring (agent : option string) (request : ChatRequest)
    : ChatRequest :=
  {| message := message request;
     session_id := session_id request;
     user_id := user_id request;
     preferred_agent := agent;
     skill_level := skill_level request |}.

End ChatSpec.

(** ** Vocabulary for the queries *)

Module SqlSpec.

(** Every character of the string satisfies the test. *)
Fixpoint all_chars (p : ascii -> bool) (s : string) : bool :=
  match s with
  | EmptyString => true
  | String c s' => (p c && all_chars p s')%bool
  end.

Fixpoint last_char (s : string) : option ascii :=
  match s with
  | EmptyString => None
  | String c EmptyString => Some c
  | String _ s' => last_char s'
  end.

(** The string has a last character and it satisfies the test. *)
Definition ends_with (p : ascii -> bool) (s : string) : bool :=
  match last_char s with
  | Some c => p c
  | None => false
  end.

End SqlSpec.

(** * Properties *)

(** ** The router *)

Module RouterFacts.

Import PyStr Router RouterSpec.

Local Open Scope Q_scope.

Lemma Qltb_true (a b : Q) : Qltb a b = true <-> a < b.
Proof.
  unfold Qltb. rewrite negb_true_iff. split; intro H.
  - apply Qnot_le_lt. intro Hle. apply Qle_bool_iff in Hle. congruence.
  - destruct (Qle_bool b a) eqn:E; [|reflexivity].
    apply Qle_bool_iff in E. exfalso. exact (Qlt_not_le _ _ H E).
Qed.

Lemma Qltb_false (a b : Q) : Qltb a b = false <-> b <= a.
Proof.
  unfold Qltb. rewrite negb_false_iff. apply Qle_bool_iff.
Qed.

(** Case analysis on every comparison of the goal, innermost first,
    leaving the comparisons as hypotheses for [lra]. *)
Ltac compare_scores :=
  repeat match goal with
  | |- context [Qltb ?a ?b] =>
    lazymatch a with context [Qltb _ _] => fail | _ => idtac end;
    lazymatch b with context [Qltb _ _] => fail | _ => idtac end;
    let E := fresh "E" in
    destruct (Qltb a b) eqn:E;
    [apply Qltb_true in E | apply Qltb_false in E]
  end.

(** *** The stable descending sort *)

Lemma insert_desc_perm (x : string * Q) (l : list (string * Q)) :
  Permutation (insert_desc x l) (x :: l).
Proof.
  induction l as [|y l IH]; simpl.
  - apply Permutation_refl.
  - destruct (Qltb (snd x) (snd y)).
    + eapply perm_trans; [apply perm_skip, IH | apply perm_swap].
    + apply Permutation_refl.
Qed.

Lemma sorted_desc_perm (l : list (string * Q)) :
  Permutation (sorted_desc l) l.
Proof.
  induction l as [|x l IH]; simpl.
  - constructor.
  - eapply perm_trans; [apply insert_desc_perm | apply perm_skip, IH].
Qed.

Lemma hd_insert_desc (x d : string * Q) (l : list (string * Q)) :
  hd d (insert_desc x l) =
  match l with
  | [] => x
  | h :: _ => better x h
  end.
Proof.
  destruct l as [|h l]; simpl; [reflexivity|].
  unfold better. destruct (Qltb (snd x) (snd h)); reflexivity.
Qed.

Lemma insert_desc_cons (x : string * Q) (l : list (string * Q)) :
  exists h t, insert_desc x l = h :: t.
Proof.
  destruct l as [|y l]; simpl; [eauto|].
  destruct (Qltb (snd x) (snd y)); eauto.
Qed.

(** Inserting two items in turn puts at the head what inserting the
    better of the two does. *)
Lemma hd_insert_twice (x y d : string * Q) (l : list (string * Q)) :
  hd d (insert_desc x (insert_desc y l)) = hd d (insert_desc (better x y) l).
Proof.
  destruct (insert_desc_cons y l) as (m & t & Em).
  rewrite hd_insert_desc, Em.
  assert (Hm : m = hd d (insert_desc y l)) by (rewrite Em; reflexivity).
  rewrite hd_insert_desc in Hm. rewrite hd_insert_desc. subst m.
  destruct l as [|h l]; [reflexivity|].
  unfold better. compare_scores; try reflexivity; exfalso; lra.
Qed.

(** The head of the sorted items is the item [max] picks: the first of
    those with the largest score. *)
Lemma hd_sorted_desc (l : list (string * Q)) (x d : string * Q) :
  hd d (sorted_desc (x :: l)) = fold_left better l x.
Proof.
  revert x. induction l as [|y l IH]; intro x; [reflexivity|].
  change (fold_left better (y :: l) x) with (fold_left better l (better x y)).
  rewrite <- IH.
  change (sorted_desc (x :: y :: l))
    with (insert_desc x (insert_desc y (sorted_desc l))).
  change (sorted_desc (better x y :: l))
    with (insert_desc (better x y) (sorted_desc l)).
  apply hd_insert_twice.
Qed.

Lemma sorted_desc_head (x : string * Q) (l : list (string * Q)) :
  exists t, sorted_desc (x :: l) = fold_left better l x :: t.
Proof.
  destruct (insert_desc_cons x (sorted_desc l)) as (h & t & E).
  change (insert_desc x (sorted_desc l)) with (sorted_desc (x :: l)) in E.
  exists t. rewrite E. f_equal.
  rewrite <- (hd_sorted_desc l x x), E. reflexivity.
Qed.

(** With distinct keys, the winner is not among the others. *)
Lemma winner_not_in_rest (x : string * Q) (l t : list (string * Q)) :
  NoDup (map fst (x :: l)) ->
  sorted_desc (x :: l) = fold_left better l x :: t ->
  ~ In (fst (fold_left better l x)) (map fst t).
Proof.
  intros Hnd E.
  assert (Hp : Permutation (map fst (sorted_desc (x :: l))) (map fst (x :: l)))
    by (apply Permutation_map, sorted_desc_perm).
  apply Permutation_sym in Hp.
  pose proof (Permutation_NoDup Hp Hnd) as Hnd'.
  rewrite E in Hnd'. simpl in Hnd'. inversion Hnd'; assumption.
Qed.

(** *** The scoring loops *)

(** Every pattern of the router lies in the modelled fragment. *)
Lemma patterns_compile : forallb compiles ALL_PATTERNS = true.
Proof. vm_compute. reflexivity. Qed.

Lemma group_compiles (group : list string) :
  incl group ALL_PATTERNS -> forallb compiles group = true.
Proof.
  intro H. apply forallb_forall. intros p Hp.
  exact (proj1 (forallb_forall _ _) patterns_compile p (H p Hp)).
Qed.

Lemma history_compiles : forallb compiles HISTORY_PATTERNS = true.
Proof. apply group_compiles. unfold ALL_PATTERNS. auto using incl_appl, incl_refl. Qed.

Lemma jazz_compiles : forallb compiles JAZZ_THEORY_PATTERNS = true.
Proof.
  apply group_compiles. unfold ALL_PATTERNS.
  auto using incl_appl, incl_appr, incl_refl.
Qed.

Lemma data_compiles : forallb compiles DATA_QUERY_PATTERNS = true.
Proof.
  apply group_compiles. unfold ALL_PATTERNS.
  auto using incl_appl, incl_appr, incl_refl.
Qed.

Lemma system_compiles : forallb compiles SYSTEM_PATTERNS = true.
Proof.
  apply group_compiles. unfold ALL_PATTERNS.
  auto using incl_appr, incl_refl.
Qed.

Lemma search_total (pattern message : string) :
  compiles pattern = true -> exists hit, Re.search pattern message = Ok hit.
Proof.
  unfold compiles, Re.search. destruct (Re.compile pattern); [eauto|discriminate].
Qed.

Lemma times_nonneg (n : nat) (w : Q) : 0 <= w -> 0 <= times n w.
Proof. intro H. induction n; simpl; lra. Qed.

(** The loop over the entities adds the bonus once if any entity occurs,
    whatever the order of iteration. *)
Lemma entity_loop_any (entities : list string) (message : string)
    (l j s d : Q) :
  entity_loop entities message (four l j s d) =
  Ok (if existsb (fun entity => contains entity message) entities
      then four (l + 3) j s d else four l j s d).
Proof.
  induction entities as [|entity rest IH]; simpl; [reflexivity|].
  destruct (contains entity message); simpl; [reflexivity | exact IH].
Qed.

Ltac loop_step IH w :=
  match goal with
  | H : forallb compiles (?p :: _) = true |- context [Re.search ?p ?m] =>
    simpl in H; apply andb_true_iff in H;
    let Hp := fresh "Hp" in let Hr := fresh "Hr" in
    destruct H as [Hp Hr];
    let hit := fresh "hit" in let Eh := fresh "Eh" in
    destruct (search_total p m Hp) as [hit Eh];
    rewrite Eh; unfold four in *; destruct hit; simpl;
    match goal with
    | |- context [pattern_loop _ _ _ _ [(_, ?a); (_, ?b); (_, ?c); (_, ?e)]] =>
      let v := fresh "v" in let E := fresh "E" in let B := fresh "B" in
      destruct (IH Hr a b c e) as (v & E & B);
      exists v; split; [exact E | lra]
    end
  end.

Lemma loop_luthier (patterns : list string) (message : string) (w : Q) :
  0 <= w -> forallb compiles patterns = true ->
  forall l j s d, exists l',
    pattern_loop patterns message "luthier_historian" w (four l j s d)
    = Ok (four l' j s d)
    /\ l <= l' <= l + times (List.length patterns) w.
Proof.
  intro Hw. induction patterns as [|p rest IH]; intros Hc l j s d.
  - exists l. simpl. split; [reflexivity | lra].
  - cbn [List.length times pattern_loop]. loop_step IH w.
Qed.

Lemma loop_jazz (patterns : list string) (message : string) (w : Q) :
  0 <= w -> forallb compiles patterns = true ->
  forall l j s d, exists j',
    pattern_loop patterns message "jazz_teacher" w (four l j s d)
    = Ok (four l j' s d)
    /\ j <= j' <= j + times (List.length patterns) w.
Proof.
  intro Hw. induction patterns as [|p rest IH]; intros Hc l j s d.
  - exists j. simpl. split; [reflexivity | lra].
  - cbn [List.length times pattern_loop]. loop_step IH w.
Qed.

Lemma loop_sql (patterns : list string) (message : string) (w : Q) :
  0 <= w -> forallb compiles patterns = true ->
  forall l j s d, exists s',
    pattern_loop patterns message "sql_expert" w (four l j s d)
    = Ok (four l j s' d)
    /\ s <= s' <= s + times (List.length patterns) w.
Proof.
  intro Hw. induction patterns as [|p rest IH]; intros Hc l j s d.
  - exists s. simpl. split; [reflexivity | lra].
  - cbn [List.length times pattern_loop]. loop_step IH w.
Qed.

Lemma loop_dev (patterns : list string) (message : string) (w : Q) :
  0 <= w -> forallb compiles patterns = true ->
  forall l j s d, exists d',
    pattern_loop patterns message "dev_pm" w (four l j s d)
    = Ok (four l j s d')
    /\ d <= d' <= d + times (List.length patterns) w.
Proof.
  intro Hw. induction patterns as [|p rest IH]; intros Hc l j s d.
  - exists d. simpl. split; [reflexivity | lra].
  - cbn [List.length times pattern_loop]. loop_step IH w.
Qed.

(** What [score_message] returns: the four keys, the entity bonus in the
    luthier's score, and at most one point per system pattern for
    [dev_pm]. *)
Lemma score_message_four (message : string) :
  exists l j s d,
    score_message message = Ok (four l j s d)
    /\ (if mentions_entity message then 3 else 0) <= l
    /\ 0 <= j /\ 0 <= s /\ 0 <= d <= 3.
Proof.
  unfold score_message.
  change [("luthier_historian"%string, 0); ("jazz_teacher"%string, 0);
          ("sql_expert"%string, 0); ("dev_pm"%string, 0)]
    with (four 0 0 0 0).
  rewrite entity_loop_any. fold (mentions_entity message).
  set (l0 := if mentions_entity message then 3 else 0).
  assert (E0 : exists l1, (if mentions_entity message
                           then four (0 + 3) 0 0 0 else four 0 0 0 0)
                          = four l1 0 0 0 /\ l0 <= l1).
  { subst l0. destruct (mentions_entity message); eexists; split;
      try reflexivity; lra. }
  destruct E0 as (l1 & -> & Hl1). cbn [rbind].
  destruct (loop_luthier HISTORY_PATTERNS message 1 ltac:(lra)
              history_compiles l1 0 0 0) as (l & -> & Hl). cbn [rbind].
  destruct (loop_jazz JAZZ_THEORY_PATTERNS message 1 ltac:(lra)
              jazz_compiles l 0 0 0) as (j & -> & Hj). cbn [rbind].
  destruct (loop_sql DATA_QUERY_PATTERNS message 1.5 ltac:(lra)
              data_compiles l j 0 0) as (s & -> & Hs). cbn [rbind].
  destruct (loop_dev SYSTEM_PATTERNS message 1 ltac:(lra)
              system_compiles l j s 0) as (d & -> & Hd).
  exists l, j, s, d. simpl in Hd.
  repeat split; try reflexivity; lra.
Qed.

(** *** The decision *)

Lemma any_search_total (patterns : list string) (message : string) :
  forallb compiles patterns = true ->
  exists hit, any_search patterns message = Ok hit.
Proof.
  induction patterns as [|p rest IH]; simpl; intro H; [eauto|].
  apply andb_true_iff in H. destruct H as [Hp Hr].
  destruct (search_total p message Hp) as [hit ->]. simpl.
  destruct hit; eauto.
Qed.

Lemma history_subgroup_total (message : string) :
  exists hit, any_search (firstn 2 HISTORY_PATTERNS) message = Ok hit.
Proof. apply any_search_total. vm_compute. reflexivity. Qed.

Lemma in_keys_filter (f : string * Q -> bool) (a : string)
    (l : list (string * Q)) :
  In a (map fst (filter f l)) -> In a (map fst l).
Proof.
  rewrite !in_map_iff. intros (x & E & H). apply filter_In in H.
  exists x. tauto.
Qed.

(** [decide] returns on any non-empty dict. *)
Lemma decide_total (x : string * Q) (rest : Dict.dict Q) (message : string) :
  exists decision, decide (x :: rest) message = Ok decision.
Proof.
  unfold decide, py_max, max_key. cbn [Dict.values map rbind].
  destruct (Qeq_bool _ 0); [eauto|].
  destruct (history_subgroup_total message) as [hit ->]. cbn [rbind]. eauto.
Qed.

(** Whatever the scores, provided the keys are distinct: the decision is
    multi-agent exactly when it lists a secondary agent, and the primary
    agent is not among the secondaries. *)
Lemma decide_secondary (scores : Dict.dict Q) (message : string)
    (decision : RoutingDecision) :
  NoDup (Dict.keys scores) ->
  decide scores message = Ok decision ->
  is_multi_agent decision = Coordinator.has_secondary decision
  /\ ~ In (agent_name decision) (secondaries decision).
Proof.
  intros Hnd H. destruct scores as [|x rest]; [discriminate|].
  unfold decide, py_max, max_key in H. cbn [Dict.values map rbind] in H.
  destruct (Qeq_bool _ 0).
  { inversion H; subst decision. split; [reflexivity | intros []]. }
  destruct (history_subgroup_total message) as [hit Eh].
  rewrite Eh in H. cbn [rbind] in H.
  destruct (sorted_desc_head x rest) as [t Et].
  pose proof (winner_not_in_rest x rest t Hnd Et) as Hw.
  unfold better in Et, Hw. rewrite Et in H.
  inversion H; subst decision; clear H.
  unfold Coordinator.has_secondary, secondaries. cbn.
  destruct t as [|s1 t]; [split; [reflexivity | intros []]|].
  destruct (Qltb 0 (snd s1)) eqn:E1; cbn; [|split; [reflexivity | intros []]].
  destruct (Qle_bool _ (snd s1)); cbn; [|split; [reflexivity | intros []]].
  rewrite E1. split; [reflexivity|].
  change (fst s1 :: map fst (filter (fun s => Qltb 0 (snd s)) t))
    with (map fst (s1 :: filter (fun s => Qltb 0 (snd s)) t)).
  intro Hin. apply Hw.
  destruct Hin as [Hin | Hin]; [left; exact Hin | right].
  exact (in_keys_filter _ _ _ Hin).
Qed.

Lemma four_keys_nodup (l j s d : Q) : NoDup (Dict.keys (four l j s d)).
Proof.
  unfold four, Dict.keys. cbn [map fst].
  repeat constructor; cbn; intuition discriminate.
Qed.

(** [classify_intent] returns a decision for every message. *)
Lemma classify_intent_total (message : string) :
  exists decision, classify_intent message = Ok decision.
Proof.
  unfold classify_intent.
  destruct (score_message_four (normalise message))
    as (l & j & s & d & -> & _).
  cbn [rbind]. apply decide_total.
Qed.

(** The invariant of the decisions of [classify_intent]. *)
Lemma classify_intent_secondary (message : string)
    (decision : RoutingDecision) :
  classify_intent message = Ok decision ->
  is_multi_agent decision = Coordinator.has_secondary decision
  /\ ~ In (agent_name decision) (secondaries decision).
Proof.
  unfold classify_intent. intro E.
  destruct (score_message_four (normalise message))
    as (l & j & s & d & Es & _).
  rewrite Es in E. cbn [rbind] in E.
  exact (decide_secondary _ _ _ (four_keys_nodup l j s d) E).
Qed.

(** C6. Every decision of [classify_intent] is multi-agent if and only if
    its list of secondary agents is non-empty, and the secondary agents
    never include the primary agent, also when several agents tie at the
    highest score (the tie goes to the first of them in the dict, which
    the stable sort also puts first). *)
Theorem multi_agent_iff_secondary (message : string) :
  exists decision,
    classify_intent message = Ok decision
    /\ is_multi_agent decision = Coordinator.has_secondary decision
    /\ ~ In (agent_name decision) (secondaries decision).
Proof.
  destruct (classify_intent_total message) as [decision E].
  exists decision. split; [exact E|].
  exact (classify_intent_secondary message decision E).
Qed.

(** A tie at the highest score: "jazz history" earns the luthier and the
    jazz teacher one point each; the luthier, first in the dict, wins and
    the jazz teacher is the one secondary agent. *)
Example tie_goes_to_first_key :
  exists decision,
    classify_intent "jazz history" = Ok decision
    /\ agent_name decision = "luthier_historian"%string
    /\ is_multi_agent decision = true
    /\ secondary_agents decision = Some ["jazz_teacher"%string].
Proof. vm_compute. eexists. repeat split. Qed.

(** *** Messages that match nothing *)

Lemma lower_char_space (c : ascii) : isspace c = true -> lower_char c = c.
Proof.
  destruct c as [[] [] [] [] [] [] [] []]; vm_compute;
    intro H; first [reflexivity | discriminate H].
Qed.

Lemma lstrip_lower_space (s : string) :
  all_space s = true -> lstrip (lower s) = EmptyString.
Proof.
  induction s as [|c s IH]; simpl; [reflexivity|].
  intro H. apply andb_true_iff in H. destruct H as [Hc Hs].
  rewrite (lower_char_space c Hc), Hc. exact (IH Hs).
Qed.

Lemma normalise_space (s : string) :
  all_space s = true -> normalise s = EmptyString.
Proof.
  intro H. unfold normalise, strip. rewrite (lstrip_lower_space s H).
  reflexivity.
Qed.

Lemma pattern_loop_no_hit (patterns : list string) (message agent : string)
    (w : Q) (scores : Dict.dict Q) :
  forallb (no_hit message) patterns = true ->
  pattern_loop patterns message agent w scores = Ok scores.
Proof.
  induction patterns as [|p rest IH]; simpl; intro H; [reflexivity|].
  apply andb_true_iff in H. destruct H as [Hp Hr].
  unfold no_hit in Hp.
  destruct (Re.search p message) as [[|]|]; try discriminate Hp.
  simpl. exact (IH Hr).
Qed.

Lemma score_message_nothing (message : string) :
  matches_nothing message = true ->
  score_message message = Ok (four 0 0 0 0).
Proof.
  unfold matches_nothing, ALL_PATTERNS. intro H.
  apply andb_true_iff in H. destruct H as [He Hp].
  apply negb_true_iff in He.
  rewrite !forallb_app in Hp.
  do 3 (apply andb_true_iff in Hp;
        let H := fresh "Hg" in destruct Hp as [H Hp]).
  unfold score_message.
  change [("luthier_historian"%string, 0); ("jazz_teacher"%string, 0);
          ("sql_expert"%string, 0); ("dev_pm"%string, 0)]
    with (four 0 0 0 0).
  rewrite entity_loop_any. fold (mentions_entity message). rewrite He.
  cbn [rbind].
  rewrite (pattern_loop_no_hit HISTORY_PATTERNS) by assumption. cbn [rbind].
  rewrite (pattern_loop_no_hit JAZZ_THEORY_PATTERNS) by assumption.
  cbn [rbind].
  rewrite (pattern_loop_no_hit DATA_QUERY_PATTERNS) by assumption.
  cbn [rbind].
  apply pattern_loop_no_hit. assumption.
Qed.

Lemma classify_nothing (message : string) :
  matches_nothing (normalise message) = true ->
  classify_intent message = Ok default_decision.
Proof.
  intro H. unfold classify_intent.
  rewrite (score_message_nothing _ H). reflexivity.
Qed.

(** C7. The empty string, a message of whitespace only, and any message
    whose normalised form contains no entity and matches no pattern of
    any group are classified without raising, as the default agent
    [jazz_teacher], with confidence exactly 0.5, category [general] and
    no multi-agent dispatch. *)
Theorem unmatched_message_default (message : string) :
  message = EmptyString
  \/ all_space message = true
  \/ matches_nothing (normalise message) = true ->
  exists decision,
    classify_intent message = Ok decision
    /\ agent_name decision = "jazz_teacher"%string
    /\ confidence decision = 0.5
    /\ intent_category decision = "general"%string
    /\ is_multi_agent decision = false.
Proof.
  intro H. exists default_decision.
  split; [|repeat split].
  apply classify_nothing.
  destruct H as [-> | [H | H]].
  - vm_compute. reflexivity.
  - rewrite (normalise_space _ H). vm_compute. reflexivity.
  - exact H.
Qed.

(** The scenario of the message "hello". *)
Lemma unmatched_message_default_hello :
  matches_nothing (normalise "hello") = true
  /\ exists decision,
       classify_intent "hello" = Ok decision
       /\ agent_name decision = "jazz_teacher"%string
       /\ confidence decision = 0.5
       /\ intent_category decision = "general"%string
       /\ is_multi_agent decision = false.
Proof.
  split; [vm_compute; reflexivity|].
  apply (unmatched_message_default "hello").
  right; right. vm_compute. reflexivity.
Defined.

(** *** Data queries that mention theory words *)

(** C1. On "How many jazz standards are in the key of Bb?" the
    classifier scores two jazz-theory patterns ("key", "jazz": 2.0)
    against one data-query pattern ("how many": 1.5) and answers
    [jazz_teacher], not [sql_expert]. *)
Theorem how_many_jazz_standards :
  exists decision,
    classify_intent "How many jazz standards are in the key of Bb?"
    = Ok decision
    /\ agent_name decision = "jazz_teacher"%string
    /\ reasoning decision = PatternScores (four 0 2 1.5 0).
Proof. vm_compute. eexists. repeat split. Qed.

(** The message of the repository's own test
    [test_routes_list_query_to_sql_expert], which asserts [sql_expert],
    meets the same fate. *)
Lemma list_all_jazz_standards :
  exists decision,
    classify_intent "List all jazz standards in the key of Bb" = Ok decision
    /\ agent_name decision = "jazz_teacher"%string.
Proof. vm_compute. eexists. repeat split. Qed.

(** *** Messages that mention an entity *)

(** C2, as stated, fails: "gibson" earns the luthier 3.0, and three
    data-query patterns earn [sql_expert] 4.5. *)
Lemma entity_outscored :
  ~ (forall message,
       mentions_entity message = true ->
       exists decision,
         classify_intent message = Ok decision
         /\ agent_name decision = "luthier_historian"%string).
Proof.
  intro H.
  destruct (H "list all gibson records by category") as (decision & E & Ha).
  - vm_compute. reflexivity.
  - vm_compute in E. inversion E; subst decision. discriminate Ha.
Qed.

(** C2, amended. When the normalised message contains a known entity, the
    luthier's score is at least 3.0, and the message is routed to
    [luthier_historian] provided neither the jazz-theory score nor the
    data-query score exceeds the luthier's score. *)
Theorem entity_routes_to_luthier (message : string) (scores : Dict.dict Q) :
  mentions_entity (normalise message) = true ->
  score_message (normalise message) = Ok scores ->
  score_of "jazz_teacher" scores <= score_of "luthier_historian" scores ->
  score_of "sql_expert" scores <= score_of "luthier_historian" scores ->
  3 <= score_of "luthier_historian" scores
  /\ exists decision,
       classify_intent message = Ok decision
       /\ agent_name decision = "luthier_historian"%string.
Proof.
  intros He Hs Hj Hq.
  destruct (score_message_four (normalise message))
    as (l & j & s & d & Es & Hl & _ & _ & Hd).
  rewrite He in Hl. rewrite Es in Hs. inversion Hs; subst scores; clear Hs.
  unfold score_of, four in Hj, Hq |- *. cbn in Hj, Hq |- *.
  split; [exact Hl|].
  unfold classify_intent. rewrite Es. cbn [rbind].
  destruct (history_subgroup_total (normalise message)) as [hit Eh].
  unfold decide, py_max, max_key, four.
  cbn [Dict.values map fold_left rbind snd fst].
  assert (Ej : Qltb l j = false) by (apply Qltb_false; lra).
  assert (Eq : Qltb l s = false) by (apply Qltb_false; lra).
  assert (Ed : Qltb l d = false) by (apply Qltb_false; lra).
  repeat (progress (cbn [snd fst]; rewrite ?Ej, ?Eq, ?Ed)).
  destruct (Qeq_bool l 0) eqn:E0.
  { apply Qeq_bool_iff in E0. exfalso. lra. }
  rewrite Eh. cbn [rbind]. eexists. split; reflexivity.
Qed.

(** A message that names Gibson and nothing else. *)
Lemma entity_routes_to_luthier_gibson :
  3 <= score_of "luthier_historian" (four 3 0 0 0)
  /\ exists decision,
       classify_intent "Tell me about Gibson guitars" = Ok decision
       /\ agent_name decision = "luthier_historian"%string.
Proof.
  apply (entity_routes_to_luthier "Tell me about Gibson guitars"
           (four 3 0 0 0)).
  - vm_compute. reflexivity.
  - vm_compute. reflexivity.
  - vm_compute. discriminate.
  - vm_compute. discriminate.
Defined.

End RouterFacts.

(** ** The conversation context *)

Module ContextFacts.

Import Context ContextSpec.

Lemma slice_from_neg {A : Type} (p : positive) (l : list A) :
  PyList.slice_from (- Z.pos p) l = last_n (Pos.to_nat p) l.
Proof.
  unfold PyList.slice_from, last_n.
  replace (- Z.pos p <? 0)%Z with true by (symmetry; apply Z.ltb_lt; lia).
  f_equal. lia.
Qed.

Lemma slice_from_zero {A : Type} (l : list A) : PyList.slice_from 0 l = l.
Proof.
  unfold PyList.slice_from. cbn [Z.ltb Z.compare].
  replace (Z.to_nat (Z.min 0 (Z.of_nat (List.length l)))) with O by lia.
  reflexivity.
Qed.

Lemma last_n_length {A : Type} (k : nat) (l : list A) :
  List.length (last_n k l) = Nat.min k (List.length l).
Proof. unfold last_n. rewrite length_skipn. lia. Qed.

Lemma last_n_suffix {A : Type} (k : nat) (l : list A) :
  exists older, l = older ++ last_n k l.
Proof.
  exists (firstn (List.length l - k) l). unfold last_n.
  symmetry. apply firstn_skipn.
Qed.

(** C4, as stated, fails: an entry recorded with the role [system] is
    returned like any other, as the pair of its role and its content. *)
Lemma system_role_returned :
  ~ (forall (context : ConversationContext) (n : Z) (m : Message),
       In m (get_recent_messages n context) ->
       msg_role m = "user" \/ msg_role m = "assistant").
Proof.
  intro H.
  pose (note := {| role := "system"; content := "summary of the session";
                   agent := None; timestamp := "2026-01-01T00:00:00" |}).
  destruct (H (with_history [note] (new_context "s1" "2026-01-01")) 10%Z
              {| msg_role := "system";
                 msg_content := "summary of the session" |}) as [E | E].
  - left. reflexivity.
  - discriminate E.
  - discriminate E.
Qed.

(** C4, amended. For every context and every n >= 1,
    [get_recent_messages(n)] is the last n history entries (all of them
    when there are fewer), in their order, each reduced to the pair of
    its role and its content, the agent and the timestamp left out; no
    entry is filtered out for its role: every one of these entries,
    whatever its role, has its pair in the result. *)
Theorem recent_messages_unfiltered (context : ConversationContext)
    (p : positive) :
  get_recent_messages (Z.pos p) context
  = map (fun entry => {| msg_role := role entry;
                         msg_content := content entry |})
        (last_n (Pos.to_nat p) (conversation_history context))
  /\ forall entry,
       In entry (last_n (Pos.to_nat p) (conversation_history context)) ->
       In {| msg_role := role entry; msg_content := content entry |}
          (get_recent_messages (Z.pos p) context).
Proof.
  assert (E : get_recent_messages (Z.pos p) context
              = map (fun entry => {| msg_role := role entry;
                                     msg_content := content entry |})
                    (last_n (Pos.to_nat p) (conversation_history context))).
  { unfold get_recent_messages. rewrite slice_from_neg. reflexivity. }
  split; [exact E|].
  intros entry Hin. rewrite E.
  exact (in_map (fun entry => {| msg_role := role entry;
                                 msg_content := content entry |})
                _ entry Hin).
Qed.

(** C9. For n >= 1 the history splits into older entries and the
    min(n, length of the history) entries at its end, and
    [get_recent_messages(n)] is these last entries in history order, each
    as the pair of its role and its content; for n = 0 the slice [[-0:]]
    is the whole list, so every entry of the history is returned. *)
Theorem recent_messages_count (context : ConversationContext) :
  (forall p : positive,
     exists older recent,
       conversation_history context = older ++ recent
       /\ List.length recent
          = Nat.min (Pos.to_nat p)
                    (List.length (conversation_history context))
       /\ get_recent_messages (Z.pos p) context
          = map (fun entry => {| msg_role := role entry;
                                 msg_content := content entry |}) recent
       /\ List.length (get_recent_messages (Z.pos p) context)
          = Nat.min (Pos.to_nat p)
                    (List.length (conversation_history context)))
  /\ get_recent_messages 0 context
     = map (fun entry => {| msg_role := role entry;
                            msg_content := content entry |})
           (conversation_history context).
Proof.
  split.
  - intro p.
    destruct (last_n_suffix (Pos.to_nat p) (conversation_history context))
      as [older E].
    exists older, (last_n (Pos.to_nat p) (conversation_history context)).
    unfold get_recent_messages. rewrite slice_from_neg.
    split; [exact E|]. split; [apply last_n_length|].
    split; [reflexivity|].
    rewrite length_map. apply last_n_length.
  - unfold get_recent_messages. cbn [Z.opp]. rewrite slice_from_zero.
    reflexivity.
Qed.

End ContextFacts.

(** ** The coordinator *)

Module CoordinatorFacts.

Import Context Agents Coordinator CoordinatorSpec.

(** *** The context is only read *)

Lemma frame_ret {A : Type} (a : A) : frame (ret a).
Proof. intro context. reflexivity. Qed.

Lemma frame_read {A : Type} (f : ConversationContext -> A) : frame (read f).
Proof. intro context. reflexivity. Qed.

Lemma frame_lift {A : Type} (r : result A) : frame (lift r).
Proof. intro context. reflexivity. Qed.

Lemma frame_bind {A B : Type} (m : M A) (f : A -> M B) :
  frame m -> (forall a, frame (f a)) -> frame (bind m f).
Proof.
  intros Hm Hf context. unfold bind. specialize (Hm context).
  destruct (m context) as [[a | e] context']; simpl in Hm; subst context'.
  - apply Hf.
  - reflexivity.
Qed.

Ltac frame_steps :=
  repeat first
    [ apply frame_ret | apply frame_read | apply frame_lift
    | apply frame_bind; [|intro] ].

Lemma frame_build_tasks (self : AgentCoordinator) (message : string)
    (agent_names : list string) :
  frame (build_tasks self message agent_names).
Proof.
  induction agent_names as [|name rest IH]; simpl.
  - apply frame_ret.
  - destruct (Dict.get name (agents self)); [|exact IH].
    apply frame_bind; [apply frame_read | intro].
    apply frame_bind; [apply frame_read | intro].
    apply frame_bind; [exact IH | intro]. apply frame_ret.
Qed.

Lemma frame_single (self : AgentCoordinator) (message : string)
    (routing : Router.RoutingDecision) :
  frame (_execute_single_agent self message routing).
Proof.
  unfold _execute_single_agent.
  destruct (Dict.get _ (agents self)); [|frame_steps].
  apply frame_bind; [apply frame_read | intro].
  apply frame_bind; [apply frame_read | intro].
  destruct (wait_for _ _); frame_steps.
Qed.

Lemma frame_multi (self : AgentCoordinator) (message : string)
    (routing : Router.RoutingDecision) :
  frame (_execute_multi_agent self message routing).
Proof.
  unfold _execute_multi_agent.
  apply frame_bind; [apply frame_build_tasks | intro].
  frame_steps.
Qed.

(** C10. [process_message] leaves the context as it found it: the
    history, the routing history, the active quiz and lesson and every
    other field are the same after the call, whatever the message, the
    agents and their outcomes; the coordinator only reads the context
    ([session_id], [to_dict], [get_recent_messages]). *)
Theorem process_message_reads_only (self : AgentCoordinator)
    (message : string) (elapsed_ms : Z) (context : ConversationContext) :
  snd (process_message self message elapsed_ms context) = context.
Proof.
  revert context. change (frame (process_message self message elapsed_ms)).
  unfold process_message.
  apply frame_bind; [apply frame_lift | intro routing].
  apply frame_bind; [|intro; apply frame_ret].
  destruct (_ && _)%bool; [apply frame_multi | apply frame_single].
Qed.

(** *** The calls made *)

Lemma build_tasks_outcomes (self : AgentCoordinator) (message : string)
    (agent_names : list string) (context : ConversationContext) :
  build_tasks self message agent_names context
  = (Ok (outcomes self message context agent_names), context).
Proof.
  induction agent_names as [|name rest IH]; simpl; [reflexivity|].
  destruct (Dict.get name (agents self)); [|exact IH].
  unfold bind, read, ret. rewrite IH. reflexivity.
Qed.

Lemma outcomes_length (self : AgentCoordinator) (message : string)
    (context : ConversationContext) (agent_names : list string) :
  (List.length (outcomes self message context agent_names)
   <= List.length agent_names)%nat.
Proof.
  induction agent_names as [|name rest IH]; simpl; [lia|].
  destruct (Dict.get name (agents self)); simpl; lia.
Qed.

(** The aggregation loop records the name carried by each response. *)
Lemma aggregate_loop_used (self : AgentCoordinator)
    (agent_names : list string) (results : list awaited) :
  forall (i : nat) (acc acc' : aggregate),
    aggregate_loop self agent_names i results acc = Ok acc' ->
    agents_used acc'
    = agents_used acc ++ map Agents.agent_name (successes results).
Proof.
  induction results as [|r rest IH]; intros i acc acc' H; simpl in H.
  - inversion H; subst. simpl. symmetry. apply app_nil_r.
  - destruct r as [result | | text];
      destruct (index agent_names i) as [name|]; simpl in H;
        try discriminate H.
    + destruct (Dict.lookup name (agents self)) as [agent|]; simpl in H;
        [|discriminate H].
      rewrite (IH _ _ _ H). simpl. rewrite <- app_assoc. reflexivity.
    + exact (IH _ _ _ H).
    + exact (IH _ _ _ H).
Qed.

(** The loop runs to its end when every selected name is in the map. *)
Lemma aggregate_loop_returns (self : AgentCoordinator)
    (agent_names : list string) (results : list awaited) :
  forallb (present self) agent_names = true ->
  forall (i : nat) (acc : aggregate),
    (i + List.length results <= List.length agent_names)%nat ->
    exists acc', aggregate_loop self agent_names i results acc = Ok acc'.
Proof.
  intro Hp. induction results as [|r rest IH]; intros i acc Hlen; simpl.
  - eauto.
  - simpl in Hlen.
    assert (Hi : (i < List.length agent_names)%nat) by lia.
    destruct (nth_error agent_names i) as [name|] eqn:En;
      [|apply nth_error_None in En; lia].
    assert (Hin : present self name = true)
      by (exact (proj1 (forallb_forall _ _) Hp name (nth_error_In _ _ En))).
    unfold present in Hin.
    destruct (Dict.get name (agents self)) as [agent|] eqn:Eg;
      [|discriminate Hin].
    destruct r; unfold index; rewrite En; cbn [rbind];
      unfold Dict.lookup; rewrite ?Eg; cbn [rbind]; apply IH; lia.
Qed.

(** *** [all_agents_used] *)

Lemma multi_condition (message : string) (routing : Router.RoutingDecision) :
  Router.classify_intent message = Ok routing ->
  (Router.is_multi_agent routing && has_secondary routing)%bool
  = Router.is_multi_agent routing.
Proof.
  intro E.
  destruct (RouterFacts.classify_intent_secondary message routing E) as [<- _].
  apply andb_diag.
Qed.

(** C3, as stated, fails in the single-agent path: on "hello" the only
    agent times out and is listed in [all_agents_used] all the same. *)
Lemma timed_out_agent_listed :
  ~ (forall self message elapsed_ms context response name,
       fst (process_message self message elapsed_ms context) = Ok response ->
       In name (all_agents_used response) ->
       call_returned self message context name = true).
Proof.
  intro H.
  pose (context := new_context "s1" "2026-01-01").
  assert (E : exists response,
             fst (process_message slow_coordinator "hello" 0 context)
             = Ok response
             /\ In "jazz_teacher" (all_agents_used response)).
  { vm_compute. eexists. split; [reflexivity | left; reflexivity]. }
  destruct E as (response & E & Hin).
  specialize (H slow_coordinator "hello" 0%Z context response
                "jazz_teacher" E Hin).
  vm_compute in H. discriminate H.
Qed.

(** C3, amended. [process_message] returns a response unless the
    decision is multi-agent and a selected agent is missing from the map.
    In the multi-agent path, [all_agents_used] of the response is exactly
    the names of the agents whose call returned, timed-out and failed
    calls left out.  In the single-agent path it is the name of the agent
    whose call returned, is empty when the agent is not in the map, and is
    the agent that was attempted when its call timed out or raised. *)
Theorem all_agents_used_meaning (self : AgentCoordinator) (message : string)
    (elapsed_ms : Z) (context : ConversationContext) :
  exists routing,
    Router.classify_intent message = Ok routing
    /\ match fst (process_message self message elapsed_ms context) with
       | Ok response =>
         all_agents_used response
         = expected_agents_used self message context routing
       | Raise _ =>
         Router.is_multi_agent routing = true
         /\ forallb (present self) (selected_names self routing) = false
       end.
Proof.
  destruct (RouterFacts.classify_intent_total message) as [routing E].
  exists routing. split; [exact E|].
  unfold process_message, bind, lift. rewrite E.
  rewrite (multi_condition message routing E).
  unfold expected_agents_used.
  destruct (Router.is_multi_agent routing).
  - unfold _execute_multi_agent, bind, lift, read, ret.
    rewrite build_tasks_outcomes.
    set (names := selected_names self routing).
    pose proof (outcomes_length self message context names) as Hlen.
    set (results := outcomes self message context names) in *.
    clearbody results. clearbody names.
    fold empty_aggregate.
    destruct (aggregate_loop self names 0 results empty_aggregate)
      as [acc | e] eqn:Ea.
    + cbn. rewrite (aggregate_loop_used _ _ _ _ _ _ Ea). reflexivity.
    + cbn. split; [reflexivity|].
      destruct (forallb (present self) names) eqn:Ep; [|reflexivity].
      destruct (aggregate_loop_returns self names results Ep 0
                  empty_aggregate Hlen) as [acc' Ea'].
      rewrite Ea' in Ea. discriminate Ea.
  - unfold _execute_single_agent, bind, read, ret, call.
    destruct (Dict.get _ (agents self)) as [agent|]; [|reflexivity].
    destruct (wait_for _ _); reflexivity.
Qed.

(** *** The empty map *)

Lemma outcomes_empty (self : AgentCoordinator) (message : string)
    (context : ConversationContext) (agent_names : list string) :
  agents self = [] -> outcomes self message context agent_names = [].
Proof.
  intro E. induction agent_names as [|name rest IH]; simpl; [reflexivity|].
  rewrite E. simpl. exact IH.
Qed.

(** C5, as stated, fails: "jazz history" ties the luthier and the jazz
    teacher, the decision is multi-agent, and the multi-agent path names
    the classifier's winner as the primary agent. *)
Lemma empty_map_multi_agent_primary :
  ~ (forall message context,
       exists response,
         fst (process_message (empty_coordinator 3 30) message 0 context)
         = Ok response
         /\ primary_agent response = "orchestrator"
         /\ all_agents_used response = []).
Proof.
  intro H.
  destruct (H "jazz history" (new_context "s1" "2026-01-01"))
    as (response & E & Hp & _).
  vm_compute in E. inversion E; subst response. discriminate Hp.
Qed.

(** C5, amended. With an empty agent map, [process_message] returns
    without raising, for every message and context, a response whose
    [all_agents_used] is empty; its [primary_agent] is [orchestrator] when
    the decision is single-agent, and the classifier's winner when the
    decision is multi-agent. *)
Theorem empty_map_response (max_agents timeout : Z) (message : string)
    (elapsed_ms : Z) (context : ConversationContext) :
  exists routing response,
    Router.classify_intent message = Ok routing
    /\ process_message (empty_coordinator max_agents timeout)
                       message elapsed_ms context
       = (Ok response, context)
    /\ all_agents_used response = []
    /\ primary_agent response
       = if Router.is_multi_agent routing
         then Router.agent_name routing
         else "orchestrator".
Proof.
  destruct (RouterFacts.classify_intent_total message) as [routing E].
  exists routing.
  unfold process_message, bind, lift. rewrite E.
  rewrite (multi_condition message routing E).
  destruct (Router.is_multi_agent routing).
  - unfold _execute_multi_agent, bind, lift, read, ret.
    rewrite build_tasks_outcomes.
    rewrite (outcomes_empty (empty_coordinator max_agents timeout))
      by reflexivity.
    cbn. eexists. repeat split; reflexivity.
  - unfold _execute_single_agent, bind, read, ret. cbn.
    eexists. repeat split; reflexivity.
Qed.

(** *** Partial failure in the multi-agent path *)






End CoordinatorFacts.

(** ** More on the router *)

Module RouterMore.

Import PyStr Router RouterSpec RouterFacts RouterMoreSpec.

Local Open Scope Q_scope.

(** *** What [max] and the sort pick *)

Lemma fold_better_in (rest : list (string * Q)) :
  forall x, In (fold_left better rest x) (x :: rest).
Proof.
  induction rest as [|y rest IH]; intro x; [left; reflexivity|].
  cbn [fold_left]. destruct (IH (better x y)) as [E | H].
  - rewrite <- E. unfold better. destruct (Qltb (snd x) (snd y));
      [right; left | left]; reflexivity.
  - right; right; exact H.
Qed.

Lemma fold_better_ge (rest : list (string * Q)) :
  forall x, snd x <= snd (fold_left better rest x).
Proof.
  induction rest as [|y rest IH]; intro x; cbn [fold_left]; [lra|].
  specialize (IH (better x y)). unfold better in IH |- *.
  destruct (Qltb (snd x) (snd y)) eqn:E; [apply Qltb_true in E; lra | exact IH].
Qed.

Lemma fold_better_max (rest : list (string * Q)) :
  forall x y, In y (x :: rest) -> snd y <= snd (fold_left better rest x).
Proof.
  induction rest as [|z rest IH]; intros x y H.
  - destruct H as [E | []]. subst y. cbn. lra.
  - cbn [fold_left].
    pose proof (fold_better_ge rest (better x z)) as G.
    destruct H as [E | [E | H]].
    + subst y. unfold better in G |- *.
      destruct (Qltb (snd x) (snd z)) eqn:E;
        [apply Qltb_true in E; lra | exact G].
    + subst y. unfold better in G |- *.
      destruct (Qltb (snd x) (snd z)) eqn:E;
        [exact G | apply Qltb_false in E; lra].
    + apply IH. right. exact H.
Qed.

Lemma fold_better_snd (rest : list (string * Q)) :
  forall x,
    fold_left (fun best y => if Qltb best y then y else best)
              (map snd rest) (snd x)
    = snd (fold_left better rest x).
Proof.
  induction rest as [|y rest IH]; intro x; [reflexivity|].
  cbn [map fold_left]. rewrite <- IH. unfold better.
  destruct (Qltb (snd x) (snd y)); reflexivity.
Qed.

Lemma insert_desc_in (x y : string * Q) (l : list (string * Q)) :
  In y (insert_desc x l) -> y = x \/ In y l.
Proof.
  intro H.
  apply (Permutation_in _ (insert_desc_perm x l)) in H.
  destruct H as [<- | H]; auto.
Qed.

Lemma insert_desc_sorted (x : string * Q) (l : list (string * Q)) :
  StronglySorted descending l -> StronglySorted descending (insert_desc x l).
Proof.
  induction l as [|y l IH]; intro H; cbn.
  - repeat constructor.
  - inversion H as [|? ? Hs Hf]; subst.
    destruct (Qltb (snd x) (snd y)) eqn:E.
    + apply Qltb_true in E. constructor; [exact (IH Hs)|].
      apply Forall_forall. intros z Hz.
      destruct (insert_desc_in _ _ _ Hz) as [-> | Hz'].
      * unfold descending. lra.
      * exact (proj1 (Forall_forall _ _) Hf z Hz').
    + apply Qltb_false in E. constructor; [exact H|].
      constructor; [exact E|].
      apply Forall_forall. intros z Hz.
      pose proof (proj1 (Forall_forall _ _) Hf z Hz) as G.
      unfold descending in *. lra.
Qed.

Lemma sorted_desc_sorted (l : list (string * Q)) :
  StronglySorted descending (sorted_desc l).
Proof.
  induction l as [|x l IH]; cbn; [constructor|].
  apply insert_desc_sorted. exact IH.
Qed.

Lemma get_in_nodup (k : string) (v : Q) (d : Dict.dict Q) :
  NoDup (Dict.keys d) -> In (k, v) d -> Dict.get k d = Some v.
Proof.
  induction d as [|[k' v'] d IH]; intros Hnd Hin; [destruct Hin|].
  cbn in Hnd. inversion Hnd as [|? ? Hni Hnd']; subst.
  cbn [Dict.get]. destruct Hin as [E | Hin].
  - inversion E; subst. rewrite String.eqb_refl. reflexivity.
  - destruct (String.eqb k k') eqn:Ek.
    + apply String.eqb_eq in Ek. subst k'. exfalso. apply Hni.
      change k with (fst (k, v)). apply in_map. exact Hin.
    + exact (IH Hnd' Hin).
Qed.

Lemma score_of_in (k : string) (v : Q) (d : Dict.dict Q) :
  NoDup (Dict.keys d) -> In (k, v) d -> score_of k d = v.
Proof.
  intros Hnd Hin. unfold score_of. rewrite (get_in_nodup k v d Hnd Hin).
  reflexivity.
Qed.

(** *** The shape of a decision *)

(** What [decide] returns on a non-empty dict: the default decision when
    the highest score is 0, otherwise the decision built from the best
    item and the rest of the sorted items. *)
Lemma decide_shape (x : string * Q) (rest : Dict.dict Q) (message : string)
    (decision : RoutingDecision) :
  decide (x :: rest) message = Ok decision ->
  (Qeq_bool (snd (fold_left better rest x)) 0 = true
   /\ decision = default_decision)
  \/ (Qeq_bool (snd (fold_left better rest x)) 0 = false
      /\ exists hit t,
           sorted_desc (x :: rest) = fold_left better rest x :: t
           /\ agent_name decision = fst (fold_left better rest x)
           /\ confidence decision
              = (if Qltb (snd (fold_left better rest x) / 5) 1
                 then snd (fold_left better rest x) / 5 else 1)
           /\ intent_category decision
              = match Dict.get (fst (fold_left better rest x))
                        [("luthier_historian",
                          if hit : bool then "guitar_history"
                          else "guitar_setup");
                         ("jazz_teacher", "music_theory");
                         ("sql_expert", "data_query");
                         ("dev_pm", "system")]%string with
                | Some category => category
                | None => "general"%string
                end
           /\ reasoning decision = PatternScores (x :: rest)
           /\ is_multi_agent decision
              = match t with
                | s1 :: _ =>
                  (Qltb 0 (snd s1)
                   && Qle_bool (snd (fold_left better rest x) * 0.6)
                               (snd s1))%bool
                | [] => false
                end
           /\ secondaries decision
              = if is_multi_agent decision
                then map fst (filter (fun s => Qltb 0 (snd s)) t)
                else []).
Proof.
  intro H. unfold decide, py_max, max_key in H.
  cbn [Dict.values map rbind] in H. rewrite fold_better_snd in H.
  destruct (Qeq_bool _ 0) eqn:E0.
  { left. split; [reflexivity|]. inversion H. reflexivity. }
  right. split; [reflexivity|].
  destruct (history_subgroup_total message) as [hit Eh].
  rewrite Eh in H. cbn [rbind] in H.
  destruct (sorted_desc_head x rest) as [t Et].
  rewrite Et in H. exists hit, t.
  injection H as <-. unfold secondaries. cbn.
  repeat split; try reflexivity; try exact Et.
  all: destruct t as [|s1 t]; try reflexivity.
  all: destruct (Qltb 0 (snd s1)); destruct (Qle_bool _ (snd s1));
    reflexivity.
Qed.

(** What [classify_intent] decides on: the four scores, none negative. *)
Lemma classify_intent_scores (message : string) :
  exists l j s d decision,
    score_message (normalise message) = Ok (four l j s d)
    /\ (0 <= l /\ 0 <= j /\ 0 <= s /\ 0 <= d)
    /\ classify_intent message = Ok decision
    /\ decide (four l j s d) (normalise message) = Ok decision.
Proof.
  destruct (score_message_four (normalise message))
    as (l & j & s & d & Es & Hl & Hj & Hs & Hd).
  destruct (decide_total ("luthier_historian"%string, l)
              [("jazz_teacher"%string, j); ("sql_expert"%string, s);
               ("dev_pm"%string, d)] (normalise message)) as [decision Ed].
  exists l, j, s, d, decision.
  assert (0 <= l) by (destruct (mentions_entity _); lra).
  repeat split; try assumption; try lra.
  unfold classify_intent. rewrite Es. exact Ed.
Qed.

Lemma four_nonneg (l j s d : Q) (kv : string * Q) :
  0 <= l -> 0 <= j -> 0 <= s -> 0 <= d -> In kv (four l j s d) ->
  0 <= snd kv.
Proof.
  intros Hl Hj Hs Hd H. unfold four in H. cbn in H.
  repeat destruct H as [<- | H]; try assumption. destruct H.
Qed.

(** The confidence of every decision is positive and at most 1: 0.5 by
    default, otherwise a fifth of the highest score, capped at 1. *)
Theorem confidence_in_unit_interval (message : string) :
  exists decision,
    classify_intent message = Ok decision
    /\ 0 < confidence decision /\ confidence decision <= 1.
Proof.
  destruct (classify_intent_scores message)
    as (l & j & s & d & decision & _ & (Hl & Hj & Hs & Hd) & Ec & Ed).
  exists decision. split; [exact Ec|].
  destruct (decide_shape _ _ _ _ Ed)
    as [[_ ->] | (E0 & hit & t & _ & _ & -> & _)].
  - cbn. lra.
  - set (best := fold_left better _ _) in *.
    assert (Hb : 0 <= snd best).
    { apply (four_nonneg l j s d); try assumption.
      apply fold_better_in. }
    assert (Hn : ~ snd best == 0).
    { intro Hq. apply Qeq_bool_iff in Hq. congruence. }
    assert (Hp : 0 < snd best).
    { destruct (Qlt_le_dec 0 (snd best)) as [G | G]; [exact G|].
      exfalso. apply Hn. lra. }
    destruct (Qltb (snd best / 5) 1) eqn:E;
      [apply Qltb_true in E | apply Qltb_false in E].
    + split; [apply Qlt_shift_div_l; lra | apply Qlt_le_weak; exact E].
    + split; lra.
Qed.

Lemma get_some_in (k : string) (v : Q) (d : Dict.dict Q) :
  Dict.get k d = Some v -> In (k, v) d.
Proof.
  induction d as [|[k' v'] d IH]; cbn [Dict.get]; [discriminate|].
  destruct (String.eqb k k') eqn:E.
  - apply String.eqb_eq in E. subst k'. intro H. inversion H. left.
    reflexivity.
  - intro H. right. exact (IH H).
Qed.

Lemma best_score (x : string * Q) (rest : Dict.dict Q) :
  NoDup (Dict.keys (x :: rest)) ->
  score_of (fst (fold_left better rest x)) (x :: rest)
  = snd (fold_left better rest x).
Proof.
  intro Hnd. apply score_of_in; [exact Hnd|].
  rewrite <- surjective_pairing. apply fold_better_in.
Qed.

(** The agent and the category of a decision go together: the default
    decision is the jazz teacher's [general]; otherwise the category is
    the winner's own, the luthier having two. *)
Theorem category_matches_agent (message : string) :
  exists decision,
    classify_intent message = Ok decision
    /\ In (agent_name decision, intent_category decision) AGENT_CATEGORIES
    /\ (intent_category decision = "general"%string
        <-> scored decision = false).
Proof.
  destruct (classify_intent_scores message)
    as (l & j & s & d & decision & _ & _ & Ec & Ed).
  exists decision. split; [exact Ec|].
  destruct (decide_shape _ _ _ _ Ed)
    as [[_ ->] | (_ & hit & t & _ & Ea & _ & Ei & Er & _)].
  - split; [left; reflexivity | split; reflexivity].
  - unfold scored. rewrite Ea, Ei, Er.
    pose proof (fold_better_in
                  [("jazz_teacher"%string, j); ("sql_expert"%string, s);
                   ("dev_pm"%string, d)] ("luthier_historian"%string, l))
      as Hin.
    cbn [In] in Hin.
    destruct Hin as [<- | [<- | [<- | [<- | []]]]]; cbn;
      destruct hit; cbn;
      (split; [tauto | split; intro H; discriminate H]).
Qed.

(** [needs_llm_classification] flags a decision exactly when it is
    multi-agent or was won with a score below 2: a single pattern hit is
    always flagged, the entity bonus alone never is, and neither is the
    default decision of a message that matched nothing. *)
Theorem llm_needed_below_two_points (message : string) :
  exists decision,
    classify_intent message = Ok decision
    /\ needs_llm_classification decision
       = (is_multi_agent decision
          || (scored decision
              && Qltb (score_of (agent_name decision)
                                (reported_scores decision)) 2))%bool.
Proof.
  destruct (classify_intent_scores message)
    as (l & j & s & d & decision & _ & _ & Ec & Ed).
  exists decision. split; [exact Ec|].
  destruct (decide_shape _ _ _ _ Ed)
    as [[_ ->] | (_ & hit & t & _ & Ea & Eq & _ & Er & _)].
  - reflexivity.
  - unfold needs_llm_classification, scored, reported_scores.
    rewrite Ea, Eq, Er.
    change (("luthier_historian"%string, l)
            :: [("jazz_teacher"%string, j); ("sql_expert"%string, s);
                ("dev_pm"%string, d)]) with (four l j s d).
    unfold four at 1.
    rewrite (best_score _ _ (four_keys_nodup l j s d)).
    set (top := snd (fold_left better _ _)).
    rewrite (orb_comm (is_multi_agent decision)).
    f_equal. cbn [andb].
    assert (Et : top == (top / 5) * 5) by (field).
    set (q := top / 5) in *.
    destruct (Qltb q 1) eqn:E1;
      [apply Qltb_true in E1 | apply Qltb_false in E1];
      destruct (Qltb top 2) eqn:E2;
      [apply Qltb_true in E2 | apply Qltb_false in E2
      |apply Qltb_true in E2 | apply Qltb_false in E2].
    + apply Qltb_true. lra.
    + apply Qltb_false. lra.
    + exfalso. lra.
    + apply Qltb_false. lra.
Qed.

Ltac place before after :=
  exists before, after;
  split; [reflexivity | repeat constructor; unfold score_of; cbn; lra].

(** Among the four agents the first with the highest score is picked. *)
Lemma best_of_four (l j s d : Q) :
  exists before after,
    AGENTS
    = before
      ++ fst (fold_left better
                [("jazz_teacher"%string, j); ("sql_expert"%string, s);
                 ("dev_pm"%string, d)] ("luthier_historian"%string, l))
      :: after
    /\ Forall (fun a =>
                 score_of a (four l j s d)
                 < snd (fold_left better
                          [("jazz_teacher"%string, j);
                           ("sql_expert"%string, s);
                           ("dev_pm"%string, d)]
                          ("luthier_historian"%string, l)))
              before.
Proof.
  unfold better, AGENTS, four. cbn [fold_left snd fst].
  compare_scores; cbn [snd fst] in *;
    first [ place (@nil string)
                  ["jazz_teacher"; "sql_expert"; "dev_pm"]%string
          | place ["luthier_historian"%string]
                  ["sql_expert"; "dev_pm"]%string
          | place ["luthier_historian"; "jazz_teacher"]%string
                  ["dev_pm"%string]
          | place ["luthier_historian"; "jazz_teacher"; "sql_expert"]%string
                  (@nil string) ].
Qed.

(** The agent chosen has the highest score, and when anything scored,
    ties go to the first of the tied agents in the order luthier, jazz
    teacher, SQL expert, dev/PM: every agent before the winner has a
    strictly lower score. *)
Theorem winner_first_with_top_score (message : string) :
  exists decision scores,
    classify_intent message = Ok decision
    /\ score_message (normalise message) = Ok scores
    /\ (forall agent,
          score_of agent scores <= score_of (agent_name decision) scores)
    /\ (scored decision = false
        \/ exists before after,
             AGENTS = before ++ agent_name decision :: after
             /\ Forall (fun a => score_of a scores
                                 < score_of (agent_name decision) scores)
                       before).
Proof.
  destruct (classify_intent_scores message)
    as (l & j & s & d & decision & Es & (Hl & Hj & Hs & Hd) & Ec & Ed).
  exists decision, (four l j s d).
  split; [exact Ec|]. split; [exact Es|].
  pose proof (fold_better_max
                [("jazz_teacher"%string, j); ("sql_expert"%string, s);
                 ("dev_pm"%string, d)] ("luthier_historian"%string, l))
    as Hmax.
  pose proof (best_score ("luthier_historian"%string, l)
                [("jazz_teacher"%string, j); ("sql_expert"%string, s);
                 ("dev_pm"%string, d)] (four_keys_nodup l j s d)) as Hbest.
  fold (four l j s d) in Hmax, Hbest.
  assert (Hall : forall agent,
             score_of agent (four l j s d)
             <= snd (fold_left better
                       [("jazz_teacher"%string, j); ("sql_expert"%string, s);
                        ("dev_pm"%string, d)]
                       ("luthier_historian"%string, l))).
  { intro agent. unfold score_of.
    destruct (Dict.get agent (four l j s d)) as [v|] eqn:Eg.
    - exact (Hmax (agent, v) (get_some_in _ _ _ Eg)).
    - pose proof (Hmax _ (or_introl eq_refl)) as G.
      change (snd ("luthier_historian"%string, l)) with l in G. lra. }
  destruct (decide_shape _ _ _ _ Ed)
    as [[E0 ->] | (_ & hit & t & _ & Ea & _ & _ & Er & _)].
  - split; [|left; reflexivity].
    apply Qeq_bool_iff in E0. intro agent.
    specialize (Hall agent).
    unfold default_decision. cbn [agent_name].
    change (score_of "jazz_teacher" (four l j s d)) with j. lra.
  - rewrite Ea. fold (four l j s d). rewrite Hbest.
    split; [exact Hall|]. right.
    destruct (best_of_four l j s d) as (before & after & E & F).
    exists before, after. split; assumption.
Qed.

(** *** The agents behind the winner *)

Lemma rest_of_sorted (x : string * Q) (rest t : list (string * Q)) :
  NoDup (Dict.keys (x :: rest)) ->
  sorted_desc (x :: rest) = fold_left better rest x :: t ->
  (forall y, In y t
             <-> In y (x :: rest) /\ fst y <> fst (fold_left better rest x))
  /\ StronglySorted descending t
  /\ NoDup (map fst t).
Proof.
  intros Hnd Et.
  pose proof (sorted_desc_perm (x :: rest)) as Hp. rewrite Et in Hp.
  pose proof (sorted_desc_sorted (x :: rest)) as Hs. rewrite Et in Hs.
  assert (Hnd' : NoDup (map fst (fold_left better rest x :: t))).
  { apply (Permutation_NoDup (l := map fst (x :: rest))); [|exact Hnd].
    apply Permutation_map. apply Permutation_sym. exact Hp. }
  cbn [map] in Hnd'. inversion Hnd' as [|? ? Hni Hnt]; subst.
  inversion Hs as [|? ? Hst _]; subst.
  repeat split; try assumption.
  - apply (Permutation_in _ Hp). right. assumption.
  - intro E. apply Hni. rewrite <- E. apply in_map. assumption.
  - intros [Hy Hne].
    apply (Permutation_in _ (Permutation_sym Hp)) in Hy.
    destruct Hy as [E | Hy]; [|exact Hy].
    exfalso. apply Hne. rewrite E. reflexivity.
Qed.

Lemma sorted_head_max (s1 y : string * Q) (t : list (string * Q)) :
  StronglySorted descending (s1 :: t) -> In y (s1 :: t) -> snd y <= snd s1.
Proof.
  intros Hs Hy. inversion Hs as [|? ? _ Hf]; subst.
  destruct Hy as [<- | Hy]; [lra|].
  exact (proj1 (Forall_forall _ _) Hf y Hy).
Qed.

(** A decision is multi-agent exactly when some agent other than the
    winner has a positive score of at least 60% of the winner's score. *)
Theorem multi_agent_threshold (message : string) :
  exists decision scores,
    classify_intent message = Ok decision
    /\ score_message (normalise message) = Ok scores
    /\ is_multi_agent decision
       = has_close_rival (agent_name decision) scores.
Proof.
  destruct (classify_intent_scores message)
    as (l & j & s & d & decision & Es & (Hl & Hj & Hs & Hd) & Ec & Ed).
  exists decision, (four l j s d).
  split; [exact Ec|]. split; [exact Es|].
  pose proof (four_keys_nodup l j s d) as Hnd.
  pose proof (best_score _ _ Hnd) as Hbest.
  pose proof (fold_better_max
                [("jazz_teacher"%string, j); ("sql_expert"%string, s);
                 ("dev_pm"%string, d)] ("luthier_historian"%string, l))
    as Hmax.
  unfold four in Hnd, Hbest. fold (four l j s d) in Hbest.
  destruct (decide_shape _ _ _ _ Ed)
    as [[E0 ->] | (_ & hit & t & Et & Ea & _ & _ & _ & Em & _)].
  - (* nothing scored: no score is positive *)
    apply Qeq_bool_iff in E0. cbn [is_multi_agent default_decision].
    destruct (has_close_rival _ _) eqn:Er; [exfalso | reflexivity].
    apply existsb_exists in Er. destruct Er as (y & Hy & Hf).
    unfold close_rival in Hf.
    apply andb_true_iff in Hf. destruct Hf as [_ Hf].
    apply andb_true_iff in Hf. destruct Hf as [Hpos _].
    apply Qltb_true in Hpos. specialize (Hmax y Hy). lra.
  - destruct (rest_of_sorted _ _ _ Hnd Et) as (Hin & Hsorted & _).
    rewrite Em, Ea. clear Em.
    set (best := fold_left better _ _) in *.
    fold (four l j s d) in Hin.
    destruct (has_close_rival (fst best) (four l j s d)) eqn:Er.
    + apply existsb_exists in Er. destruct Er as (y & Hy & Hf).
      unfold close_rival in Hf. rewrite Hbest in Hf.
      apply andb_true_iff in Hf. destruct Hf as [Hne Hf].
      apply negb_true_iff, String.eqb_neq in Hne.
      apply andb_true_iff in Hf. destruct Hf as [Hpos Hle].
      apply Qltb_true in Hpos. apply Qle_bool_iff in Hle.
      assert (Hyt : In y t) by (apply Hin; split; assumption).
      destruct t as [|s1 t]; [destruct Hyt|].
      pose proof (sorted_head_max s1 y t Hsorted Hyt) as G.
      apply andb_true_iff. split.
      * apply Qltb_true. lra.
      * apply Qle_bool_iff. lra.
    + destruct t as [|s1 t]; [reflexivity|].
      destruct (Qltb 0 (snd s1) && Qle_bool (snd best * 0.6) (snd s1))%bool
        eqn:Eg; [exfalso | reflexivity].
      assert (Hs1 : In s1 (four l j s d) /\ fst s1 <> fst best)
        by (apply Hin; left; reflexivity).
      destruct Hs1 as [Hs1 Hne].
      assert (Hf : close_rival (fst best) (four l j s d) s1 = true).
      { unfold close_rival. rewrite Hbest, Eg.
        apply String.eqb_neq in Hne. rewrite Hne. reflexivity. }
      assert (Hex : has_close_rival (fst best) (four l j s d) = true)
        by (apply existsb_exists; exists s1; split; assumption).
      congruence.
Qed.

Lemma sorted_keys (scores t : list (string * Q)) :
  (forall y, In y t -> score_of (fst y) scores = snd y) ->
  StronglySorted descending t ->
  StronglySorted
    (fun a b => score_of b scores <= score_of a scores)
    (map fst (filter (fun s => Qltb 0 (snd s)) t)).
Proof.
  intros Hsc Hs. induction Hs as [|y t Hs IH Hf]; cbn; [constructor|].
  assert (IH' := IH (fun z Hz => Hsc z (or_intror Hz))).
  destruct (Qltb 0 (snd y)); [|exact IH'].
  cbn. constructor; [exact IH'|].
  apply Forall_forall. intros a Ha.
  apply in_map_iff in Ha. destruct Ha as (z & <- & Hz).
  apply filter_In in Hz. destruct Hz as [Hz _].
  rewrite (Hsc z (or_intror Hz)), (Hsc y (or_introl eq_refl)).
  exact (proj1 (Forall_forall _ _) Hf z Hz).
Qed.

Lemma nodup_keys_filter (f : string * Q -> bool) (t : list (string * Q)) :
  NoDup (map fst t) -> NoDup (map fst (filter f t)).
Proof.
  induction t as [|y t IH]; cbn; intro H; [constructor|].
  inversion H as [|? ? Hni Hnd]; subst.
  destruct (f y); [|exact (IH Hnd)].
  cbn. constructor; [|exact (IH Hnd)].
  intro Hin. apply Hni. exact (in_keys_filter _ _ _ Hin).
Qed.

(** The secondary agents of a multi-agent decision are exactly the
    agents other than the winner whose score is positive, each once, in
    descending order of score; a decision that is not multi-agent has
    none. *)
Theorem secondaries_are_positive_rivals (message : string) :
  exists decision scores,
    classify_intent message = Ok decision
    /\ score_message (normalise message) = Ok scores
    /\ NoDup (secondaries decision)
    /\ (forall agent,
          In agent (secondaries decision)
          <-> is_multi_agent decision = true
              /\ agent <> agent_name decision
              /\ 0 < score_of agent scores)
    /\ StronglySorted
         (fun a b => score_of b scores <= score_of a scores)
         (secondaries decision).
Proof.
  destruct (classify_intent_scores message)
    as (l & j & s & d & decision & Es & _ & Ec & Ed).
  exists decision, (four l j s d).
  split; [exact Ec|]. split; [exact Es|].
  pose proof (four_keys_nodup l j s d) as Hnd.
  destruct (decide_shape _ _ _ _ Ed)
    as [[_ ->] | (_ & hit & t & Et & Ea & _ & _ & _ & _ & Esec)].
  - split; [constructor|]. split; [|constructor].
    intro agent. cbn. split; [intros [] | intros [H _]; discriminate H].
  - unfold four in Hnd.
    destruct (rest_of_sorted _ _ _ Hnd Et) as (Hin & Hsorted & Hndt).
    fold (four l j s d) in Hin, Hnd.
    rewrite Esec, Ea. set (best := fold_left better _ _) in *.
    assert (Hsc : forall y, In y t ->
                            score_of (fst y) (four l j s d) = snd y).
    { intros y Hy. apply score_of_in; [exact Hnd|].
      rewrite <- surjective_pairing. apply Hin. exact Hy. }
    destruct (is_multi_agent decision).
    + split; [apply nodup_keys_filter; exact Hndt|].
      split; [|apply sorted_keys; assumption].
      intro agent. rewrite in_map_iff. split.
      * intros (y & <- & Hy). apply filter_In in Hy.
        destruct Hy as [Hy Hpos]. apply Qltb_true in Hpos.
        split; [reflexivity|]. split; [apply Hin; exact Hy|].
        rewrite (Hsc y Hy). exact Hpos.
      * intros (_ & Hne & Hpos). unfold score_of in Hpos.
        destruct (Dict.get agent (four l j s d)) as [v|] eqn:Eg;
          [|exfalso; lra].
        exists (agent, v). split; [reflexivity|].
        apply filter_In. split; [|apply Qltb_true; exact Hpos].
        apply Hin. split; [exact (get_some_in _ _ _ Eg) | exact Hne].
    + split; [constructor|]. split; [|constructor].
      intro agent. split; [intros [] | intros [H _]; discriminate H].
Qed.

End RouterMore.

(** ** Strings *)

Module PyStrFacts.

Import PyStr PyStrSpec.

Lemma append_nil_r (s : string) : (s ++ "")%string = s.
Proof. induction s as [|c s IH]; cbn; [reflexivity | rewrite IH; reflexivity]. Qed.

Lemma append_assoc (a b c : string) :
  ((a ++ b) ++ c)%string = (a ++ (b ++ c))%string.
Proof. induction a as [|x a IH]; cbn; [reflexivity | rewrite IH; reflexivity]. Qed.

Lemma rev_onto_append (s acc : string) :
  rev_onto s acc = (reverse s ++ acc)%string.
Proof.
  unfold reverse. revert acc.
  induction s as [|c s IH]; intro acc; cbn; [reflexivity|].
  rewrite (IH (String c acc)), (IH (String c EmptyString)), append_assoc.
  reflexivity.
Qed.

Lemma reverse_cons (c : ascii) (s : string) :
  reverse (String c s) = (reverse s ++ String c "")%string.
Proof. unfold reverse at 1. cbn. apply rev_onto_append. Qed.

Lemma reverse_append (a b : string) :
  reverse (a ++ b) = (reverse b ++ reverse a)%string.
Proof.
  induction a as [|c a IH]; cbn [append].
  - symmetry. apply append_nil_r.
  - rewrite !reverse_cons, IH, append_assoc. reflexivity.
Qed.

Lemma reverse_involutive (s : string) : reverse (reverse s) = s.
Proof.
  induction s as [|c s IH]; [reflexivity|].
  rewrite reverse_cons, reverse_append, IH. reflexivity.
Qed.

Lemma lstrip_append_blank (a b : string) :
  lstrip a = EmptyString -> lstrip (a ++ b) = lstrip b.
Proof.
  induction a as [|c a IH]; cbn; [reflexivity|].
  destruct (isspace c); [exact IH | discriminate].
Qed.

Lemma lstrip_append_kept (a b : string) :
  lstrip a <> EmptyString -> lstrip (a ++ b) = (lstrip a ++ b)%string.
Proof.
  induction a as [|c a IH]; cbn; [intro H; exfalso; apply H; reflexivity|].
  destruct (isspace c); [exact IH | reflexivity].
Qed.

Lemma reverse_empty (s : string) : reverse s = EmptyString -> s = EmptyString.
Proof.
  intro H. rewrite <- (reverse_involutive s), H. reflexivity.
Qed.

(** [rstrip], defined through [reverse], is the recursion from the left. *)
Lemma rstrip_is_rec (s : string) : rstrip s = rstrip_rec s.
Proof.
  unfold rstrip. induction s as [|c s IH]; [reflexivity|].
  cbn [rstrip_rec]. rewrite <- IH, reverse_cons.
  destruct (lstrip (reverse s)) as [|x r] eqn:E.
  - rewrite (lstrip_append_blank _ _ E). cbn.
    destruct (isspace c); reflexivity.
  - rewrite lstrip_append_kept by (rewrite E; discriminate).
    rewrite E, reverse_append.
    destruct (reverse (String x r)) as [|y r'] eqn:Er.
    + apply reverse_empty in Er. discriminate Er.
    + reflexivity.
Qed.

Lemma rstrip_rec_idempotent (s : string) :
  rstrip_rec (rstrip_rec s) = rstrip_rec s.
Proof.
  induction s as [|c s IH]; [reflexivity|]. cbn [rstrip_rec].
  destruct (rstrip_rec s) as [|x r] eqn:E.
  - destruct (isspace c) eqn:Ec; cbn; [reflexivity|]. rewrite Ec. reflexivity.
  - cbn [rstrip_rec]. cbn [rstrip_rec] in IH. rewrite IH. reflexivity.
Qed.

Lemma lstrip_idempotent (s : string) : lstrip (lstrip s) = lstrip s.
Proof.
  induction s as [|c s IH]; [reflexivity|]. cbn.
  destruct (isspace c) eqn:E; [exact IH|]. cbn. rewrite E. reflexivity.
Qed.

(** Stripping the right end leaves a stripped left end alone. *)
Lemma lstrip_rstrip_rec (s : string) :
  lstrip s = s -> lstrip (rstrip_rec s) = rstrip_rec s.
Proof.
  destruct s as [|c s]; [reflexivity|]. cbn [lstrip rstrip_rec].
  destruct (isspace c) eqn:E.
  - intro H. exfalso.
    assert (G : (String.length (lstrip s) <= String.length s)%nat).
    { clear. induction s as [|x s IH]; cbn; [lia|].
      destruct (isspace x); cbn; lia. }
    rewrite H in G. cbn in G. lia.
  - intros _. destruct (rstrip_rec s); cbn; rewrite E; reflexivity.
Qed.

Lemma strip_idempotent (s : string) : strip (strip s) = strip s.
Proof.
  unfold strip. rewrite !rstrip_is_rec.
  rewrite (lstrip_rstrip_rec (lstrip s) (lstrip_idempotent s)).
  apply rstrip_rec_idempotent.
Qed.

Lemma isspace_lower_char (c : ascii) : isspace (lower_char c) = isspace c.
Proof. destruct c as [[] [] [] [] [] [] [] []]; vm_compute; reflexivity. Qed.

Lemma lower_char_idempotent (c : ascii) :
  lower_char (lower_char c) = lower_char c.
Proof. destruct c as [[] [] [] [] [] [] [] []]; vm_compute; reflexivity. Qed.

Lemma lower_idempotent (s : string) : lower (lower s) = lower s.
Proof.
  induction s as [|c s IH]; cbn; [reflexivity|].
  rewrite lower_char_idempotent, IH. reflexivity.
Qed.

Lemma lower_lstrip (s : string) : lower (lstrip s) = lstrip (lower s).
Proof.
  induction s as [|c s IH]; cbn; [reflexivity|].
  rewrite isspace_lower_char. destruct (isspace c); [exact IH | reflexivity].
Qed.

Lemma lower_rstrip_rec (s : string) :
  lower (rstrip_rec s) = rstrip_rec (lower s).
Proof.
  induction s as [|c s IH]; cbn [lower rstrip_rec]; [reflexivity|].
  rewrite <- IH, isspace_lower_char.
  destruct (rstrip_rec s); cbn; [destruct (isspace c)|]; reflexivity.
Qed.

Lemma lower_strip (s : string) : lower (strip s) = strip (lower s).
Proof.
  unfold strip. rewrite !rstrip_is_rec, lower_rstrip_rec, lower_lstrip.
  reflexivity.
Qed.

End PyStrFacts.

(** ** The router and the form of the message *)

Module RouterForm.

Import PyStr Router PyStrFacts.

(** Classification ignores the case of the letters and the whitespace
    around the message: lower-casing a message, or stripping it, before
    it is classified changes nothing. *)
Theorem classification_ignores_case_and_padding (message : string) :
  classify_intent (lower message) = classify_intent message
  /\ classify_intent (strip message) = classify_intent message.
Proof.
  unfold classify_intent, normalise. split.
  - rewrite lower_idempotent. reflexivity.
  - rewrite lower_strip, strip_idempotent. reflexivity.
Qed.

End RouterForm.

(** ** More on the conversation context *)

Module ContextMore.

Import Context ContextSpec ContextMoreSpec.

Lemma last_n_snoc {A : Type} (k : nat) (l : list A) (x : A) :
  last_n (S k) (l ++ [x]) = last_n k l ++ [x].
Proof.
  unfold last_n. rewrite length_app. cbn [List.length].
  replace (List.length l + 1 - S k)%nat with (List.length l - k)%nat by lia.
  rewrite skipn_app.
  replace (List.length l - k - List.length l)%nat with O by lia.
  reflexivity.
Qed.

(** A message added is the last of the recent messages, whatever the
    number asked for (at least one), after the messages that were the
    most recent before. *)
Theorem added_message_is_most_recent (now role content : string)
    (agent : option string) (p : positive) (self : ConversationContext) :
  get_recent_messages (Z.pos p) (add_message now role content agent self)
  = map to_message
        (last_n (Pos.to_nat p - 1) (conversation_history self))
    ++ [{| msg_role := role; msg_content := content |}].
Proof.
  unfold get_recent_messages. rewrite ContextFacts.slice_from_neg.
  destruct (Pos.to_nat p) as [|k] eqn:E; [lia|].
  cbn [add_message with_history conversation_history].
  rewrite last_n_snoc, map_app. cbn.
  replace (k - 0)%nat with k by lia. reflexivity.
Qed.

Lemma invoke_history (self : ConversationContext) (m : method) :
  conversation_history (invoke self m)
  = conversation_history self ++ recorded_entries [m]
  /\ agent_routing_history (invoke self m)
     = agent_routing_history self ++ recorded_agents [m]
  /\ Context.session_id (invoke self m) = Context.session_id self
  /\ created_at (invoke self m) = created_at self.
Proof.
  destruct m; cbn; rewrite ?app_nil_r; repeat split; reflexivity.
Qed.

(** The history and the routing history are append-only: after any
    sequence of calls of the context's methods they are what they were,
    followed by the messages added and the agents recorded, in order;
    nothing is dropped or rewritten, and the session id stays. *)
Theorem histories_append_only (calls : list method)
    (self : ConversationContext) :
  conversation_history (session calls self)
  = conversation_history self ++ recorded_entries calls
  /\ agent_routing_history (session calls self)
     = agent_routing_history self ++ recorded_agents calls
  /\ Context.session_id (session calls self) = Context.session_id self.
Proof.
  unfold session. revert self.
  induction calls as [|m calls IH]; intro self.
  - cbn. rewrite !app_nil_r. repeat split; reflexivity.
  - cbn [fold_left]. destruct (IH (invoke self m)) as (H1 & H2 & H3).
    destruct (invoke_history self m) as (G1 & G2 & G3 & _).
    rewrite H1, H2, H3, G1, G2, G3.
    change (m :: calls) with ([m] ++ calls).
    unfold recorded_entries, recorded_agents.
    rewrite !flat_map_app, !app_assoc. repeat split; reflexivity.
Qed.

(** The quiz and the lesson are single slots: ending returns what was
    started last and clears the slot, so that a second ending returns
    nothing; starting overwrites; and a start followed by an end leaves
    the context as an end alone would, the other slot untouched. *)
Theorem quiz_and_lesson_slots (q1 q2 : PyDict) (self : ConversationContext) :
  (fst (end_quiz (start_quiz q2 (start_quiz q1 self))) = Some q2
   /\ fst (end_quiz (snd (end_quiz self))) = None
   /\ snd (end_quiz (start_quiz q1 self)) = snd (end_quiz self)
   /\ active_lesson (snd (end_quiz (start_quiz q1 self)))
      = active_lesson self)
  /\ (fst (end_lesson (start_lesson q2 (start_lesson q1 self))) = Some q2
      /\ fst (end_lesson (snd (end_lesson self))) = None
      /\ snd (end_lesson (start_lesson q1 self)) = snd (end_lesson self)
      /\ active_quiz (snd (end_lesson (start_lesson q1 self)))
         = active_quiz self).
Proof. repeat split; reflexivity. Qed.

Lemma slice_from_last {A : Type} (p : positive) (l : list A) :
  PyList.slice_from (- Z.pos p) l = last_n (Pos.to_nat p) l.
Proof. apply ContextFacts.slice_from_neg. Qed.

(** [to_dict] gives the agents a bounded view: the last five agents of
    the routing history (all of them when there are fewer) and the number
    of messages; an agent just recorded is the last of the five. *)
Theorem to_dict_view (agent_name : string) (self : ConversationContext) :
  d_agent_history (to_dict self) = last_n 5 (agent_routing_history self)
  /\ (List.length (d_agent_history (to_dict self)) <= 5)%nat
  /\ d_message_count (to_dict self)
     = Z.of_nat (List.length (conversation_history self))
  /\ d_agent_history (to_dict (record_agent_used agent_name self))
     = last_n 4 (agent_routing_history self) ++ [agent_name].
Proof.
  unfold to_dict. cbn [d_agent_history d_message_count].
  change (-5)%Z with (- Z.pos 5)%Z. rewrite !slice_from_last.
  change (Pos.to_nat 5) with 5%nat.
  repeat split.
  - rewrite ContextFacts.last_n_length. lia.
  - cbn [record_agent_used with_routing_history agent_routing_history].
    apply last_n_snoc.
Qed.

(** With a negative argument [get_recent_messages] does not return the
    last entries: [get_recent_messages(-k)] is the slice [[k:]], the whole
    history but its first k entries. *)
Theorem recent_messages_negative (p : positive)
    (self : ConversationContext) :
  get_recent_messages (Z.neg p) self
  = map (fun entry => {| msg_role := role entry;
                         msg_content := content entry |})
        (skipn (Pos.to_nat p) (conversation_history self)).
Proof.
  unfold get_recent_messages, PyList.slice_from. cbn [Z.opp].
  replace (Z.pos p <? 0)%Z with false by (symmetry; apply Z.ltb_ge; lia).
  change to_message
    with (fun entry => {| msg_role := role entry;
                          msg_content := content entry |}).
  f_equal.
  set (l := conversation_history self).
  destruct (Nat.le_gt_cases (List.length l) (Pos.to_nat p)) as [H | H].
  - rewrite (skipn_all2 l H).
    apply skipn_all2. lia.
  - f_equal. lia.
Qed.

End ContextMore.

(** ** More on the coordinator *)

Module CoordinatorMore.

Import Context Agents Coordinator CoordinatorSpec CoordinatorFacts.
Import CoordinatorMoreSpec.

(** *** The aggregation loop *)

(** What the loop adds to each accumulator, when it runs to its end. *)
Lemma aggregate_loop_adds (self : AgentCoordinator)
    (agent_names : list string) (results : list awaited) :
  forall (i : nat) (acc acc' : aggregate),
    aggregate_loop self agent_names i results acc = Ok acc' ->
    all_suggestions acc'
    = all_suggestions acc
      ++ List.concat (map Agents.suggestions (successes results))
    /\ all_data acc'
       = fold_left Dict.update (map Agents.data (successes results))
                   (all_data acc)
    /\ total_tokens_in acc'
       = (total_tokens_in acc
          + total (map tokens_input (successes results)))%Z
    /\ total_tokens_out acc'
       = (total_tokens_out acc
          + total (map tokens_output (successes results)))%Z
    /\ List.length (contents acc')
       = (List.length (contents acc)
          + List.length (successes results))%nat.
Proof.
  induction results as [|r rest IH]; intros i acc acc' H; simpl in H.
  - inversion H; subst. cbn. rewrite app_nil_r.
    repeat split; lia.
  - destruct r as [result | | text];
      destruct (index agent_names i) as [name|]; simpl in H;
        try discriminate H.
    + destruct (Dict.lookup name (agents self)) as [agent|]; simpl in H;
        [|discriminate H].
      destruct (IH _ _ _ H) as (H1 & H2 & H3 & H4 & H5).
      cbn in H1, H2, H3, H4, H5. cbn [successes map List.concat fold_left total].
      rewrite H1, H2, H3, H4, H5, <- app_assoc, length_app. cbn.
      unfold total. cbn.
      repeat split; lia.
    + exact (IH _ _ _ H).
    + exact (IH _ _ _ H).
Qed.

(** With no response among the outcomes the loop changes nothing and
    looks no agent up. *)
Lemma aggregate_loop_no_success (self : AgentCoordinator)
    (agent_names : list string) (results : list awaited) :
  successes results = [] ->
  forall (i : nat) (acc : aggregate),
    (i + List.length results <= List.length agent_names)%nat ->
    aggregate_loop self agent_names i results acc = Ok acc.
Proof.
  induction results as [|r rest IH]; intros Hs i acc Hlen; [reflexivity|].
  cbn [List.length] in Hlen.
  destruct (nth_error agent_names i) as [name|] eqn:En;
    [|apply nth_error_None in En; lia].
  destruct r as [result | | text]; [discriminate Hs | |];
    cbn [aggregate_loop]; unfold index; rewrite En; cbn [rbind];
    apply IH; try exact Hs; lia.
Qed.

(** The multi-agent path, with the calls made set out. *)
Lemma multi_agent_unfold (self : AgentCoordinator) (message : string)
    (routing : Router.RoutingDecision) (context : ConversationContext) :
  _execute_multi_agent self message routing context
  = match aggregate_loop self (selected_names self routing) 0
            (outcomes self message context (selected_names self routing))
            empty_aggregate with
    | Ok acc =>
      (Ok {| content :=
               match contents acc with
               | [] => "I couldn't get a response. Please try again."
               | _ => PyStr.join separator (contents acc)
               end;
             primary_agent := Router.agent_name routing;
             all_agents_used := agents_used acc;
             session_id := Context.session_id context;
             suggestions := PyList.slice_to 5 (all_suggestions acc);
             data := all_data acc;
             quiz := None;
             total_tokens_input := total_tokens_in acc;
             total_tokens_output := total_tokens_out acc;
             total_latency_ms := 0;
             routing_decision := None |}, context)
    | Raise e => (Raise e, context)
    end.
Proof.
  unfold _execute_multi_agent, bind, lift, read, ret.
  rewrite build_tasks_outcomes. fold empty_aggregate.
  destruct (aggregate_loop _ _ _ _ _); reflexivity.
Qed.

Lemma single_agent_session (self : AgentCoordinator) (message : string)
    (routing : Router.RoutingDecision) (context : ConversationContext) :
  exists response,
    _execute_single_agent self message routing context
    = (Ok response, context)
    /\ session_id response = Context.session_id context.
Proof.
  unfold _execute_single_agent, bind, read, ret.
  destruct (Dict.get _ (agents self)) as [agent|].
  - destruct (wait_for _ _); eexists; split; reflexivity.
  - eexists; split; reflexivity.
Qed.

(** *** What every response carries *)

(** Whenever [process_message] returns, the response echoes the decision
    of the classifier (agent, confidence, category, multi-agent flag),
    carries the measured latency of the whole call, and the session id of
    the context. *)
Theorem response_echoes_routing (self : AgentCoordinator) (message : string)
    (elapsed_ms : Z) (context : ConversationContext) :
  match fst (process_message self message elapsed_ms context) with
  | Ok response =>
    exists routing,
      Router.classify_intent message = Ok routing
      /\ routing_decision response = Some (echo routing)
      /\ total_latency_ms response = elapsed_ms
      /\ session_id response = Context.session_id context
  | Raise _ => True
  end.
Proof.
  destruct (RouterFacts.classify_intent_total message) as [routing E].
  unfold process_message, bind, lift. rewrite E.
  destruct (_ && _)%bool.
  - rewrite multi_agent_unfold.
    destruct (aggregate_loop _ _ _ _ _); cbn; [|exact I].
    exists routing. repeat split; reflexivity.
  - destruct (single_agent_session self message routing context)
      as (response & -> & Hs).
    cbn. exists routing. repeat split; try reflexivity. exact Hs.
Qed.

(** *** The cap on the agents called *)





(** *** Every call failing *)

(** When no call of the multi-agent path returns a response (each timed
    out or raised, or no selected agent is in the map), the path does not
    raise: it answers with the fixed apology, no agent used, no tokens,
    no suggestions, no data, and the classifier's winner as primary
    agent. *)
Theorem all_calls_failed (self : AgentCoordinator) (message : string)
    (routing : Router.RoutingDecision) (context : ConversationContext) :
  successes (outcomes self message context (selected_names self routing))
  = [] ->
  _execute_multi_agent self message routing context
  = (Ok {| content := "I couldn't get a response. Please try again.";
           primary_agent := Router.agent_name routing;
           all_agents_used := [];
           session_id := Context.session_id context;
           suggestions := [];
           data := [];
           quiz := None;
           total_tokens_input := 0;
           total_tokens_output := 0;
           total_latency_ms := 0;
           routing_decision := None |}, context).
Proof.
  intro H. rewrite multi_agent_unfold.
  rewrite (aggregate_loop_no_success _ _ _ H 0 empty_aggregate
             (outcomes_length _ _ _ _)).
  reflexivity.
Qed.

Lemma all_calls_failed_slow :
  _execute_multi_agent slow_coordinator "jazz history" two_way
                       (new_context "s1" "2026-01-01")
  = (Ok {| content := "I couldn't get a response. Please try again.";
           primary_agent := "luthier_historian";
           all_agents_used := [];
           session_id := "s1";
           suggestions := [];
           data := [];
           quiz := None;
           total_tokens_input := 0;
           total_tokens_output := 0;
           total_latency_ms := 0;
           routing_decision := None |}, new_context "s1" "2026-01-01").
Proof.
  apply (all_calls_failed slow_coordinator "jazz history" two_way
           (new_context "s1" "2026-01-01")).
  reflexivity.
Defined.

(** *** A selected agent missing from the map *)

(** [process_message] can raise.  When the decision is multi-agent, the
    primary agent is not in the map and the first call made returns a
    response, the label of that response is looked up under the primary
    agent's name (the results are indexed like [agent_names], from which
    the missing agents were not removed) and the [KeyError] reaches the
    caller. *)
Theorem missing_primary_raises (self : AgentCoordinator) (message : string)
    (elapsed_ms : Z) (context : ConversationContext)
    (routing : Router.RoutingDecision) (result : AgentResponse)
    (others : list awaited) :
  Router.classify_intent message = Ok routing ->
  Router.is_multi_agent routing = true ->
  Dict.get (Router.agent_name routing) (agents self) = None ->
  outcomes self message context (selected_names self routing)
  = Returned result :: others ->
  process_message self message elapsed_ms context
  = (Raise (KeyError (Router.agent_name routing)), context).
Proof.
  intros Ec Em Eg Eo.
  unfold process_message, bind, lift. rewrite Ec.
  rewrite (multi_condition message routing Ec), Em.
  rewrite multi_agent_unfold, Eo.
  unfold selected_names at 1. cbn [aggregate_loop index nth_error rbind].
  unfold Dict.lookup. rewrite Eg. reflexivity.
Qed.

Lemma missing_primary_raises_jazz_history :
  process_message no_luthier "jazz history" 0 (new_context "s1" "2026-01-01")
  = (Raise (KeyError "luthier_historian"), new_context "s1" "2026-01-01").
Proof.
  assert (E : exists routing,
             Router.classify_intent "jazz history" = Ok routing
             /\ Router.agent_name routing = "luthier_historian"
             /\ Router.is_multi_agent routing = true
             /\ Router.secondary_agents routing = Some ["jazz_teacher"]).
  { vm_compute. eexists. repeat split. }
  destruct E as (routing & Ec & Ea & Em & Es).
  rewrite <- Ea.
  apply (missing_primary_raises no_luthier "jazz history" 0
           (new_context "s1" "2026-01-01") routing
           (reply "jazz_teacher" "Swing it.") []).
  - exact Ec.
  - exact Em.
  - rewrite Ea. reflexivity.
  - unfold selected_names. rewrite Ea, Es. reflexivity.
Defined.

(** *** What the multi-agent path adds up *)

Lemma slice_to_five {A : Type} (l : list A) :
  PyList.slice_to 5 l = firstn 5 l.
Proof.
  unfold PyList.slice_to. cbn [Z.ltb Z.compare].
  destruct (Nat.le_gt_cases 5 (List.length l)) as [H | H].
  - f_equal. lia.
  - rewrite (firstn_all2 (n := 5)) by lia.
    apply firstn_all2. lia.
Qed.

(** Whenever the multi-agent path returns, the token counts of the
    response are the sums over the agents that returned, and its
    suggestions are the first five of their suggestions put end to end,
    in the order of the calls. *)
Theorem multi_agent_totals (self : AgentCoordinator) (message : string)
    (routing : Router.RoutingDecision) (context : ConversationContext) :
  match fst (_execute_multi_agent self message routing context) with
  | Ok response =>
    total_tokens_input response
    = total (map tokens_input
                 (successes (outcomes self message context
                                      (selected_names self routing))))
    /\ total_tokens_output response
       = total (map tokens_output
                    (successes (outcomes self message context
                                         (selected_names self routing))))
    /\ suggestions response
       = firstn 5 (List.concat
                     (map Agents.suggestions
                          (successes (outcomes self message context
                                               (selected_names self routing)))))
    /\ (List.length (suggestions response) <= 5)%nat
  | Raise _ => True
  end.
Proof.
  rewrite multi_agent_unfold.
  destruct (aggregate_loop _ _ _ _ _) as [acc|] eqn:Ea; cbn; [|exact I].
  destruct (aggregate_loop_adds _ _ _ _ _ _ Ea) as (H1 & _ & H3 & H4 & _).
  cbn in H1, H3, H4. rewrite H1, H3, H4, slice_to_five.
  repeat split. rewrite length_firstn. lia.
Qed.

(** *** Merging the data of several agents *)

Lemma get_set_same {V : Type} (k : string) (v : V) (d : Dict.dict V) :
  Dict.get k (Dict.set k v d) = Some v.
Proof.
  induction d as [|[k' v'] d IH]; cbn.
  - rewrite String.eqb_refl. reflexivity.
  - destruct (String.eqb k k') eqn:E; cbn.
    + rewrite String.eqb_refl. reflexivity.
    + rewrite E. exact IH.
Qed.

Lemma get_set_other {V : Type} (k k' : string) (v : V) (d : Dict.dict V) :
  k <> k' -> Dict.get k' (Dict.set k v d) = Dict.get k' d.
Proof.
  intro Hne. induction d as [|[k0 v0] d IH]; cbn.
  - apply String.eqb_neq in Hne. rewrite String.eqb_sym, Hne. reflexivity.
  - destruct (String.eqb k k0) eqn:E; cbn.
    + apply String.eqb_eq in E. subst k0.
      apply String.eqb_neq in Hne. rewrite String.eqb_sym, Hne.
      reflexivity.
    + destruct (String.eqb k' k0); [reflexivity | exact IH].
Qed.

Lemma get_not_key {V : Type} (k : string) (d : Dict.dict V) :
  ~ In k (Dict.keys d) -> Dict.get k d = None.
Proof.
  induction d as [|[k' v'] d IH]; cbn; intro H; [reflexivity|].
  destruct (String.eqb k k') eqn:E.
  - apply String.eqb_eq in E. exfalso. apply H. left. symmetry. exact E.
  - apply IH. intro G. apply H. right. exact G.
Qed.

(** [d.update(other)]: the keys of [other] take its values, the others
    keep theirs. *)
Lemma get_update {V : Type} (k : string) (other : Dict.dict V) :
  NoDup (Dict.keys other) ->
  forall d,
    Dict.get k (Dict.update d other)
    = match Dict.get k other with
      | Some v => Some v
      | None => Dict.get k d
      end.
Proof.
  unfold Dict.update.
  induction other as [|[k1 v1] other IH]; intros Hnd d; [reflexivity|].
  cbn in Hnd. inversion Hnd as [|? ? Hni Hnd']; subst.
  cbn [fold_left fst snd Dict.get]. rewrite (IH Hnd').
  destruct (String.eqb k k1) eqn:E.
  - apply String.eqb_eq in E. subst k1.
    rewrite (get_not_key k other Hni). apply get_set_same.
  - destruct (Dict.get k other); [reflexivity|].
    apply get_set_other. intro G. subst k1.
    rewrite String.eqb_refl in E. discriminate E.
Qed.

Lemma get_merged_from (k : string) (responses : list AgentResponse) :
  Forall (fun r => NoDup (Dict.keys (Agents.data r))) responses ->
  Forall (fun r => Dict.get k (Agents.data r) = None) responses ->
  forall d,
    Dict.get k (fold_left Dict.update (map Agents.data responses) d)
    = Dict.get k d.
Proof.
  induction responses as [|r rest IH]; intros Hw Hn d; [reflexivity|].
  inversion Hw; subst. inversion Hn as [|? ? Hr Hrest]; subst.
  cbn [map fold_left]. rewrite IH by assumption.
  rewrite get_update by assumption. rewrite Hr. reflexivity.
Qed.

(** When several agents return data under the same key, the response
    keeps the value of the last of them in the order of the calls: for a
    key that the data of a response holds and the data of no later
    response holds, the merged data holds that response's value. *)
Theorem later_data_overwrites (self : AgentCoordinator) (message : string)
    (routing : Router.RoutingDecision) (context : ConversationContext)
    (response : OrchestratorResponse)
    (before after : list AgentResponse) (r : AgentResponse)
    (k v : string) :
  fst (_execute_multi_agent self message routing context) = Ok response ->
  successes (outcomes self message context (selected_names self routing))
  = before ++ r :: after ->
  Forall (fun r' => NoDup (Dict.keys (Agents.data r')))
         (before ++ r :: after) ->
  Dict.get k (Agents.data r) = Some v ->
  Forall (fun r' => Dict.get k (Agents.data r') = None) after ->
  Dict.get k (data response) = Some v.
Proof.
  intros He Hs Hw Hk Ha.
  rewrite multi_agent_unfold in He.
  destruct (aggregate_loop _ _ _ _ _) as [acc|] eqn:Ea;
    cbn in He; [|discriminate He].
  inversion He; subst response; clear He. cbn [data].
  destruct (aggregate_loop_adds _ _ _ _ _ _ Ea) as (_ & H2 & _).
  rewrite H2, Hs. cbn [all_data empty_aggregate].
  rewrite map_app, fold_left_app. cbn [map fold_left].
  apply Forall_app in Hw. destruct Hw as [_ Hw].
  inversion Hw; subst.
  rewrite get_merged_from by assumption.
  rewrite get_update by assumption. rewrite Hk. reflexivity.
Qed.

Lemma later_data_overwrites_rows :
  exists response,
    fst (_execute_multi_agent overlapping "jazz history" two_way
           (new_context "s1" "2026-01-01")) = Ok response
    /\ Dict.get "rows" (data response) = Some "2".
Proof.
  eexists. split; [vm_compute; reflexivity|].
  apply (later_data_overwrites overlapping "jazz history" two_way
           (new_context "s1" "2026-01-01") _
           [{| Agents.content := "done";
               Agents.agent_name := "luthier_historian";
               confidence := 0.9; tools_used := [];
               Agents.data := [("rows", "1"); ("wood", "spruce")];
               Agents.suggestions := []; tokens_input := 1;
               tokens_output := 2; latency_ms := 3; error := None |}]
           []
           {| Agents.content := "done"; Agents.agent_name := "jazz_teacher";
              confidence := 0.9; tools_used := [];
              Agents.data := [("rows", "2")];
              Agents.suggestions := []; tokens_input := 1;
              tokens_output := 2; latency_ms := 3; error := None |}
           "rows" "2").
  - vm_compute. reflexivity.
  - reflexivity.
  - repeat constructor; cbn; intuition discriminate.
  - reflexivity.
  - constructor.
Defined.

End CoordinatorMore.

(** ** The messages an agent sends, and the chat endpoint *)

Module ChatFacts.

Import Context Agents Coordinator CoordinatorSpec CoordinatorFacts.
Import Base Chat ChatSpec.

Lemma collect_is_filter (history acc : list Message) :
  fold_left (fun messages msg =>
               if allowed_role (msg_role msg) then messages ++ [msg]
               else messages) history acc
  = acc ++ filter (fun msg => allowed_role (msg_role msg)) history.
Proof.
  revert acc. induction history as [|m rest IH]; intro acc; cbn.
  - symmetry. apply app_nil_r.
  - rewrite IH. destruct (allowed_role (msg_role m)); [|reflexivity].
    rewrite <- app_assoc. reflexivity.
Qed.

Lemma slice_from_length {A : Type} (p : positive) (l : list A) :
  (List.length (PyList.slice_from (- Z.pos p) l) <= Pos.to_nat p)%nat.
Proof.
  rewrite ContextFacts.slice_from_neg, ContextFacts.last_n_length. lia.
Qed.

(** Whatever history [think] is given, the messages it sends carry only
    the roles [user] and [assistant]: they are at most ten allowed
    messages of the history, in order, followed by the message itself as
    a user message. *)
Theorem think_sends_allowed_roles (message : string)
    (conversation_history : option (list Message)) :
  exists earlier,
    think_messages message conversation_history
    = earlier ++ [user_message message]
    /\ Forall (fun msg => msg_role msg = "user"
                          \/ msg_role msg = "assistant") earlier
    /\ (List.length earlier <= 10)%nat
    /\ (forall msg, In msg earlier ->
                    exists history, conversation_history = Some history
                                    /\ In msg history).
Proof.
  unfold think_messages.
  destruct conversation_history as [[|m rest]|].
  - exists []. split; [reflexivity|]. split; [constructor|].
    split; [cbn; lia | intros msg []].
  - exists (filter (fun msg => allowed_role (msg_role msg))
                   (PyList.slice_from (-10) (m :: rest))).
    rewrite collect_is_filter. split; [reflexivity|].
    split; [|split].
    + apply Forall_forall. intros msg H. apply filter_In in H.
      destruct H as [_ H]. unfold allowed_role in H.
      apply orb_true_iff in H.
      destruct H as [H | H]; apply String.eqb_eq in H; auto.
    + pose proof (slice_from_length 10 (m :: rest)) as G.
      pose proof (filter_length_le (fun msg => allowed_role (msg_role msg))
                    (PyList.slice_from (-10) (m :: rest))) as F.
      change (- Z.pos 10)%Z with (-10)%Z in G.
      change (Pos.to_nat 10) with 10%nat in G. lia.
    + intros msg H. exists (m :: rest). split; [reflexivity|].
      apply filter_In in H. destruct H as [H _].
      unfold PyList.slice_from in H.
      rewrite <- (firstn_skipn (Z.to_nat
                    (if (-10 <? 0)%Z
                     then Z.max 0 (-10 + Z.of_nat (List.length (m :: rest)))
                     else Z.min (-10) (Z.of_nat (List.length (m :: rest)))))
                    (m :: rest)).
      apply in_or_app. right. exact H.
  - exists []. split; [reflexivity|]. split; [constructor|].
    split; [cbn; lia | intros msg []].
Qed.

(** The context the endpoint builds holds the message of the request
    and nothing else, with or without a session id: an agent reached
    through the coordinator is handed that one message as its recent
    history, and, adding the message itself, sends it to the model
    twice. *)
Theorem request_message_sent_twice (request : ChatRequest)
    (uuid created now : string) :
  get_recent_messages 10 (request_context request uuid created now)
  = [user_message (message request)]
  /\ d_message_count (to_dict (request_context request uuid created now))
     = 1%Z
  /\ think_messages
       (message request)
       (Some (get_recent_messages 10
                (request_context request uuid created now)))
     = [user_message (message request); user_message (message request)].
Proof.
  repeat split.
Qed.

(** [process_message] sees of the context only its session id, its
    [to_dict] and its ten most recent messages. *)
Lemma process_message_view (self : AgentCoordinator) (message : string)
    (elapsed_ms : Z) (c1 c2 : ConversationContext) :
  Context.session_id c1 = Context.session_id c2 ->
  to_dict c1 = to_dict c2 ->
  get_recent_messages 10 c1 = get_recent_messages 10 c2 ->
  fst (process_message self message elapsed_ms c1)
  = fst (process_message self message elapsed_ms c2).
Proof.
  intros Hs Hd Hr.
  assert (Ho : forall names,
             outcomes self message c1 names = outcomes self message c2 names).
  { induction names as [|n names IH]; [reflexivity|]. cbn.
    unfold call. rewrite IH, Hd, Hr. reflexivity. }
  unfold process_message, bind, lift.
  destruct (Router.classify_intent message) as [routing|]; [|reflexivity].
  destruct (_ && _)%bool.
  - unfold _execute_multi_agent, bind, lift, read, ret.
    rewrite !build_tasks_outcomes, Ho, Hs.
    destruct (aggregate_loop _ _ _ _ _); reflexivity.
  - unfold _execute_single_agent, bind, read, ret.
    destruct (Dict.get _ (agents self)); cbv beta.
    + rewrite Hd, Hr. destruct (wait_for _ _); cbv beta iota;
        rewrite Hs; reflexivity.
    + rewrite Hs. reflexivity.
Qed.

(** The [preferred_agent] of a request has no effect on the answer: it
    is stored in the metadata of the context, which neither the
    classifier nor the coordinator reads. *)
Theorem preferred_agent_ignored (coordinator : option AgentCoordinator)
    (request : ChatRequest) (agent : option string)
    (uuid created now : string) (elapsed_ms : Z) :
  chat coordinator (preferring agent request) uuid created now elapsed_ms
  = chat coordinator request uuid created now elapsed_ms.
Proof.
  unfold chat. cbn [message preferring].
  destruct coordinator as [self|].
  - rewrite (process_message_view self (message request) elapsed_ms
               (request_context (preferring agent request) uuid created now)
               (request_context request uuid created now));
      reflexivity.
  - reflexivity.
Qed.

End ChatFacts.

(** ** The guards of a query *)

Module SqlFacts.

Import PyStr PyStrSpec PyStrFacts PyText SqlExpert Queries SqlTools SqlSpec.

(** *** Text *)

Lemma list_of_append (a b : string) :
  list_ascii_of_string (a ++ b)
  = list_ascii_of_string a ++ list_ascii_of_string b.
Proof.
  induction a as [|c a IH]; cbn; [reflexivity | rewrite IH; reflexivity].
Qed.

Lemma upper_append (a b : string) : upper (a ++ b) = upper a ++ upper b.
Proof. unfold upper. rewrite list_of_append. apply flat_map_app. Qed.

Lemma startswith_app (p a b : text) :
  startswith p a = true -> startswith p (a ++ b) = true.
Proof.
  revert a. induction p as [|x p IH]; intros a H; [reflexivity|].
  destruct a as [|y a]; [discriminate H|]. cbn in H |- *.
  apply andb_true_iff in H. destruct H as [Hx Hp].
  rewrite Hx, (IH a Hp). reflexivity.
Qed.

Lemma contains_app_l (p a b : text) :
  contains p a = true -> contains p (a ++ b) = true.
Proof.
  induction a as [|y a IH]; intro H.
  - cbn in H. rewrite orb_false_r in H.
    destruct p as [|x p]; [|discriminate H].
    destruct b; reflexivity.
  - cbn [contains] in H. apply orb_true_iff in H.
    change ((y :: a) ++ b) with (y :: (a ++ b)). cbn [contains].
    apply orb_true_iff. destruct H as [H | H].
    + left. exact (startswith_app p (y :: a) b H).
    + right. exact (IH H).
Qed.

Lemma contains_app_r (p a b : text) :
  contains p b = true -> contains p (a ++ b) = true.
Proof.
  intro H. induction a as [|y a IH]; [exact H|].
  change ((y :: a) ++ b) with (y :: (a ++ b)). cbn [contains].
  rewrite IH. apply orb_true_r.
Qed.

Lemma contains_middle (p a w b : text) :
  contains p w = true -> contains p (a ++ w ++ b) = true.
Proof.
  intro H. apply contains_app_r, contains_app_l. exact H.
Qed.

(** *** Stripping keeps the inside of a string *)

Lemma lstrip_suffix (s : string) : exists a, s = (a ++ lstrip s)%string.
Proof.
  induction s as [|c s IH]; [exists EmptyString; reflexivity|]. cbn.
  destruct (isspace c).
  - destruct IH as [a E]. exists (String c a). cbn. rewrite <- E.
    reflexivity.
  - exists EmptyString. reflexivity.
Qed.

Lemma rstrip_rec_prefix (s : string) :
  exists b, s = (rstrip_rec s ++ b)%string.
Proof.
  induction s as [|c s IH]; [exists EmptyString; reflexivity|].
  cbn [rstrip_rec]. destruct IH as [b E].
  destruct (rstrip_rec s) as [|x r].
  - destruct (isspace c).
    + exists (String c s). reflexivity.
    + exists s. reflexivity.
  - exists b. cbn. cbn in E. rewrite <- E. reflexivity.
Qed.

Lemma strip_inside (s : string) :
  exists a b, s = (a ++ strip s ++ b)%string.
Proof.
  unfold strip. rewrite rstrip_is_rec.
  destruct (lstrip_suffix s) as [a Ea].
  destruct (rstrip_rec_prefix (lstrip s)) as [b Eb].
  exists a, b. rewrite <- Eb. exact Ea.
Qed.

Lemma contains_upper_strip (p : text) (s : string) :
  contains p (upper (strip s)) = true -> contains p (upper s) = true.
Proof.
  intro H. destruct (strip_inside s) as (a & b & E).
  rewrite E, !upper_append. apply contains_middle. exact H.
Qed.

(** *** The two guards *)

Lemma first_forbidden_none (forbidden : list string) (sql_upper : text) :
  first_forbidden forbidden sql_upper = None ->
  forall keyword, In keyword forbidden ->
                  contains (literal keyword) sql_upper = false.
Proof.
  induction forbidden as [|k rest IH]; intros H keyword Hin; [destruct Hin|].
  cbn in H. destruct (contains (literal k) sql_upper) eqn:E;
    [discriminate H|].
  destruct Hin as [<- | Hin]; [exact E | exact (IH H keyword Hin)].
Qed.

Lemma first_forbidden_clear (forbidden : list string) (sql_upper : text) :
  (forall keyword, In keyword forbidden ->
                   contains (literal keyword) sql_upper = false) ->
  first_forbidden forbidden sql_upper = None.
Proof.
  induction forbidden as [|k rest IH]; intro H; [reflexivity|].
  cbn. rewrite (H k (or_introl eq_refl)).
  apply IH. intros keyword Hin. apply H. right. exact Hin.
Qed.

(** *** What the right strips leave *)

Lemma all_chars_append (p : ascii -> bool) (a b : string) :
  all_chars p (a ++ b) = (all_chars p a && all_chars p b)%bool.
Proof.
  induction a as [|c a IH]; cbn; [reflexivity|].
  rewrite IH. apply andb_assoc.
Qed.

Lemma all_chars_reverse (p : ascii -> bool) (s : string) :
  all_chars p (reverse s) = all_chars p s.
Proof.
  induction s as [|c s IH]; [reflexivity|].
  rewrite reverse_cons, all_chars_append, IH. cbn.
  rewrite andb_true_r. apply andb_comm.
Qed.

Lemma last_char_snoc (a : string) (c : ascii) :
  last_char (a ++ String c EmptyString) = Some c.
Proof.
  induction a as [|x a IH]; [reflexivity|].
  cbn [append last_char]. rewrite IH.
  destruct a; reflexivity.
Qed.

Section Strips.

Variable p : ascii -> bool.
Variable drop : string -> string.
Hypothesis drop_empty : drop EmptyString = EmptyString.
Hypothesis drop_cons :
  forall c s, drop (String c s) = if p c then drop s else String c s.

Lemma drop_split (s : string) :
  exists dropped,
    s = (dropped ++ drop s)%string
    /\ all_chars p dropped = true
    /\ match drop s with
       | String c _ => p c = false
       | EmptyString => True
       end.
Proof.
  induction s as [|c s IH].
  - exists EmptyString. rewrite drop_empty. repeat split.
  - rewrite drop_cons. destruct (p c) eqn:E.
    + destruct IH as (dropped & Es & Ha & Hf).
      exists (String c dropped). cbn. rewrite E, Ha, <- Es.
      repeat split. exact Hf.
    + exists EmptyString. repeat split. exact E.
Qed.

(** What [reverse (drop (reverse s))] leaves of [s]. *)
Lemma right_strip_split (s : string) :
  exists dropped,
    s = (reverse (drop (reverse s)) ++ dropped)%string
    /\ all_chars p dropped = true
    /\ ends_with p (reverse (drop (reverse s))) = false.
Proof.
  destruct (drop_split (reverse s)) as (dropped & Es & Ha & Hf).
  exists (reverse dropped). split; [|split].
  - rewrite <- reverse_append, <- Es. symmetry. apply reverse_involutive.
  - rewrite all_chars_reverse. exact Ha.
  - destruct (drop (reverse s)) as [|c r]; [reflexivity|].
    unfold ends_with. rewrite reverse_cons, last_char_snoc. exact Hf.
Qed.

End Strips.

Lemma rstrip_split (s : string) :
  exists blanks,
    s = (rstrip s ++ blanks)%string
    /\ all_chars isspace blanks = true
    /\ ends_with isspace (rstrip s) = false.
Proof.
  apply (right_strip_split isspace lstrip); [reflexivity|].
  intros c r. reflexivity.
Qed.

Lemma rstrip_char_split (x : ascii) (s : string) :
  exists dropped,
    s = (rstrip_char x s ++ dropped)%string
    /\ all_chars (fun c => Ascii.eqb c x) dropped = true
    /\ ends_with (fun c => Ascii.eqb c x) (rstrip_char x s) = false.
Proof.
  apply (right_strip_split (fun c => Ascii.eqb c x) (lstrip_char x));
    [reflexivity|].
  intros c r. reflexivity.
Qed.

(** A query that [_validate_sql] accepts passes the guard of
    [execute_safe_select] as well, and [_execute_query] hands the
    database one statement: the query itself when its stripped
    upper-case form contains [LIMIT]; otherwise the query cut before
    its trailing whitespace and before the semicolons that end what is
    left (whitespace before those semicolons stays), followed by
    [ LIMIT 50].  In both cases the statement contains [LIMIT], and the
    result reports the rows, their count and the query as given, or the
    error of the database. *)
Theorem validated_query_reaches_database (sql : string) :
  is_valid (_validate_sql sql) = true ->
  exists statement,
    safe_select_statement sql = Execute statement
    /\ (if contains (literal "LIMIT") (upper (strip sql))
        then statement = sql
        else exists body semicolons blanks,
               sql = (body ++ semicolons ++ blanks)%string
               /\ all_chars isspace blanks = true
               /\ all_chars (fun c => Ascii.eqb c ";") semicolons = true
               /\ ends_with isspace (body ++ semicolons) = false
               /\ ends_with (fun c => Ascii.eqb c ";") body = false
               /\ statement = (body ++ " LIMIT 50")%string)
    /\ contains (literal "LIMIT") (upper statement) = true
    /\ forall db params,
         _execute_query (Some db) sql params
         = match db statement match params with
                              | Some (p :: ps) => p :: ps
                              | _ => []
                              end with
           | inl results =>
             QueryRows results (Z.of_nat (List.length results)) sql
           | inr e => QueryError e
           end.
Proof.
  intro Hv. unfold _execute_query, execute_safe_select. rewrite Hv.
  cbn [negb]. unfold _validate_sql in Hv. unfold safe_select_statement.
  destruct (startswith (literal "SELECT") (upper (strip sql)));
    [|discriminate Hv]. cbn [negb] in Hv |- *.
  destruct (first_forbidden SqlExpert.FORBIDDEN (upper (strip sql)))
    eqn:Ef; [discriminate Hv|].
  rewrite (first_forbidden_clear Queries.FORBIDDEN).
  2:{ intros keyword Hin. apply (first_forbidden_none _ _ Ef).
      unfold Queries.FORBIDDEN in Hin. unfold SqlExpert.FORBIDDEN.
      cbn in Hin |- *. tauto. }
  destruct (contains (literal "LIMIT") (upper (strip sql))) eqn:El;
    cbn [negb]; eexists; (split; [reflexivity|]);
    (split; [|split; [|reflexivity]]).
  - reflexivity.
  - apply contains_upper_strip. exact El.
  - destruct (rstrip_split sql) as (blanks & Es & Hb & He).
    destruct (rstrip_char_split ";" (rstrip sql))
      as (semicolons & Er & Hs & Hn).
    exists (rstrip_char ";" (rstrip sql)), semicolons, blanks.
    rewrite <- append_assoc, <- Er, <- Es. repeat split; assumption.
  - rewrite upper_append. apply contains_app_r. reflexivity.
Qed.

Lemma validated_query_reaches_database_chords :
  exists statement,
    safe_select_statement "select name from chords ; ; "
    = Execute statement
    /\ (exists body semicolons blanks,
          "select name from chords ; ; "%string
          = (body ++ semicolons ++ blanks)%string
          /\ all_chars isspace blanks = true
          /\ all_chars (fun c => Ascii.eqb c ";") semicolons = true
          /\ ends_with isspace (body ++ semicolons) = false
          /\ ends_with (fun c => Ascii.eqb c ";") body = false
          /\ statement = (body ++ " LIMIT 50")%string)
    /\ contains (literal "LIMIT") (upper statement) = true
    /\ forall db params,
         _execute_query (Some db) "select name from chords ; ; " params
         = match db statement match params with
                              | Some (p :: ps) => p :: ps
                              | _ => []
                              end with
           | inl results =>
             QueryRows results (Z.of_nat (List.length results))
                       "select name from chords ; ; "
           | inr e => QueryError e
           end.
Proof.
  apply (validated_query_reaches_database "select name from chords ; ; ").
  vm_compute. reflexivity.
Defined.

(** *** A keyword inside a word *)

Lemma lstrip_keeps (a : string) (c : ascii) (r : string) :
  isspace c = false ->
  exists a', lstrip (a ++ String c r) = (a' ++ String c r)%string.
Proof.
  intro Hc. induction a as [|x a IH]; cbn.
  - rewrite Hc. exists EmptyString. reflexivity.
  - destruct (isspace x); [exact IH|].
    exists (String x a). reflexivity.
Qed.

Lemma rstrip_rec_keeps (p : string) (c : ascii) (b : string) :
  isspace c = false ->
  exists b', rstrip_rec (p ++ String c b) = (p ++ String c b')%string.
Proof.
  intro Hc. induction p as [|x p IH].
  - cbn. rewrite Hc. destruct (rstrip_rec b) as [|y r].
    + exists EmptyString. reflexivity.
    + exists (String y r). reflexivity.
  - destruct IH as [b' E]. exists b'.
    change (String x p ++ String c b)%string
      with (String x (p ++ String c b)).
    cbn [rstrip_rec]. rewrite E.
    destruct p; reflexivity.
Qed.

Lemma strip_keeps (a b m : string) (c1 c2 : ascii) :
  isspace c1 = false -> isspace c2 = false ->
  exists a' b',
    strip (a ++ String c1 (m ++ String c2 EmptyString) ++ b)
    = (a' ++ String c1 (m ++ String c2 EmptyString) ++ b')%string.
Proof.
  intros H1 H2. unfold strip. rewrite rstrip_is_rec.
  assert (N : forall t,
             (String c1 (m ++ String c2 EmptyString) ++ t)%string
             = String c1 (m ++ String c2 t)).
  { intro t. cbn. rewrite append_assoc. reflexivity. }
  rewrite N.
  destruct (lstrip_keeps a c1 (m ++ String c2 b) H1) as [a' Ea].
  rewrite Ea. exists a'.
  assert (M : forall t,
             (a' ++ String c1 (m ++ String c2 t))%string
             = ((a' ++ String c1 m) ++ String c2 t)%string).
  { intro t. rewrite append_assoc. reflexivity. }
  rewrite M.
  destruct (rstrip_rec_keeps (a' ++ String c1 m) c2 b H2) as [b' Eb].
  rewrite Eb. exists b'. rewrite N, M. reflexivity.
Qed.

Lemma first_forbidden_some (forbidden : list string) (sql_upper : text)
    (keyword : string) :
  In keyword forbidden ->
  contains (literal keyword) sql_upper = true ->
  exists found, first_forbidden forbidden sql_upper = Some found.
Proof.
  intros Hin Hc.
  destruct (first_forbidden forbidden sql_upper) as [found|] eqn:E;
    [exists found; reflexivity|].
  rewrite (first_forbidden_none _ _ E keyword Hin) in Hc. discriminate Hc.
Qed.

(** A word whose upper-case form contains one of the eight keywords
    ([created_at] and [updated_at], the timestamp columns of the
    models, contain [CREATE] and [UPDATE]) makes both guards refuse
    every query it occurs in, wherever it stands. *)
Theorem keyword_inside_word_refused (a b m : string) (c1 c2 : ascii)
    (keyword : string) :
  isspace c1 = false -> isspace c2 = false ->
  In keyword Queries.FORBIDDEN ->
  contains (literal keyword)
           (upper (String c1 (m ++ String c2 EmptyString))) = true ->
  let sql := (a ++ String c1 (m ++ String c2 EmptyString) ++ b)%string in
  is_valid (_validate_sql sql) = false
  /\ (exists text, safe_select_statement sql = RaiseValueError text)
  /\ forall db params,
       exists e, _execute_query db sql params = QueryError e.
Proof.
  intros H1 H2 Hin Hc sql.
  assert (Hs : contains (literal keyword) (upper (strip sql)) = true).
  { unfold sql. destruct (strip_keeps a b m c1 c2 H1 H2) as (a' & b' & E).
    rewrite E, !upper_append. apply contains_middle. exact Hc. }
  assert (Hv : is_valid (_validate_sql sql) = false).
  { unfold _validate_sql.
    destruct (startswith (literal "SELECT") (upper (strip sql)));
      [|reflexivity]. cbn [negb].
    destruct (first_forbidden_some SqlExpert.FORBIDDEN (upper (strip sql))
                                   keyword)
      as [found Ef]; [|exact Hs|rewrite Ef; reflexivity].
    unfold Queries.FORBIDDEN in Hin. unfold SqlExpert.FORBIDDEN.
    cbn in Hin |- *. tauto. }
  split; [exact Hv|]. split.
  - unfold safe_select_statement.
    destruct (startswith (literal "SELECT") (upper (strip sql)));
      cbn [negb]; [|eexists; reflexivity].
    destruct (first_forbidden_some Queries.FORBIDDEN _ keyword Hin Hs)
      as [found Ef].
    rewrite Ef. eexists; reflexivity.
  - intros db params. unfold _execute_query. rewrite Hv. cbn [negb].
    eexists; reflexivity.
Qed.

Lemma keyword_inside_word_refused_created_at :
  let sql := "select title, created_at from lessons" in
  is_valid (_validate_sql sql) = false
  /\ (exists text, safe_select_statement sql = RaiseValueError text)
  /\ forall db params,
       exists e, _execute_query db sql params = QueryError e.
Proof.
  apply (keyword_inside_word_refused
           "select title, " " from lessons" "reated_a" "c" "t" "CREATE");
    vm_compute; auto 10.
Defined.

(** *** The entry that never fires *)

Lemma startswith_tail (x : N) (p s : text) (y : N) :
  startswith (x :: p) (y :: s) = true -> startswith p s = true.
Proof. cbn. intro H. apply andb_true_iff in H. apply H. Qed.

Lemma contains_tail (x : N) (p s : text) :
  contains (x :: p) s = true -> contains p s = true.
Proof.
  induction s as [|y s IH]; intro H; [discriminate H|].
  cbn [contains] in H. apply orb_true_iff in H. cbn [contains].
  apply orb_true_iff. right. destruct H as [H | H].
  - apply startswith_tail in H. destruct s as [|z s].
    + destruct p; [reflexivity | discriminate H].
    + cbn [contains]. rewrite H. reflexivity.
  - exact (IH H).
Qed.

Lemma semicolon_entry_unreachable (sql_upper : text) :
  first_forbidden SqlExpert.FORBIDDEN sql_upper <> Some ";--"%string.
Proof.
  intro H. unfold SqlExpert.FORBIDDEN in H. cbn [first_forbidden] in H.
  repeat match type of H with
         | context [if contains ?k sql_upper then _ else _] =>
           destruct (contains k sql_upper) eqn:?
         end; try discriminate H.
  match goal with
  | E : contains (literal ";--") sql_upper = true |- _ =>
    change (literal ";--") with (59%N :: literal "--") in E;
      apply contains_tail in E
  end.
  congruence.
Qed.

(** The entry [;--] of the list of [_validate_sql] never fires: a text
    that contains it contains [--], which stands before it in the
    list, so that no query is ever refused with the reason
    [Forbidden keyword: ;--]. *)
Theorem semicolon_comment_never_reported (sql : string) :
  reason (_validate_sql sql) <> "Forbidden keyword: ;--"%string.
Proof.
  unfold _validate_sql.
  destruct (startswith (literal "SELECT") (upper (strip sql)));
    cbn [negb]; [|discriminate].
  destruct (first_forbidden SqlExpert.FORBIDDEN (upper (strip sql)))
    as [keyword|] eqn:E; [|discriminate].
  cbn [reason]. intro H. cbn in H. injection H as H.
  apply (semicolon_entry_unreachable (upper (strip sql))).
  rewrite E, H. reflexivity.
Qed.

End SqlFacts.

(** ** Follow-up suggestions *)

Module SuggestionFacts.

Import PyStr.

Lemma startswith_rest (x : ascii) (p s : string) (y : ascii) :
  startswith (String x p) (String y s) = true -> startswith p s = true.
Proof. cbn. intro H. apply andb_true_iff in H. apply H. Qed.

Lemma contains_rest (x : ascii) (p s : string) :
  contains (String x p) s = true -> contains p s = true.
Proof.
  induction s as [|y s IH]; intro H; [discriminate H|].
  cbn [contains] in H. apply orb_true_iff in H. cbn [contains].
  apply orb_true_iff. right. destruct H as [H | H].
  - apply startswith_rest in H. destruct s as [|z s].
    + destruct p; [reflexivity | discriminate H].
    + cbn [contains]. rewrite H. reflexivity.
  - exact (IH H).
Qed.

Lemma tonewood_is_wood (s : string) :
  contains "tonewood" s = true -> contains "wood" s = true.
Proof. intro H. do 4 apply contains_rest in H. exact H. Qed.

Ltac tests :=
  repeat match goal with
         | |- context [contains ?k ?s] => destruct (contains k s)
         end.

Lemma slice_to_three {A : Type} (l : list A) :
  PyList.slice_to 3 l = firstn 3 l.
Proof.
  unfold PyList.slice_to. cbn [Z.ltb Z.compare].
  destruct l as [|a [|b [|c l]]]; try reflexivity.
  replace (Z.to_nat (Z.min 3 (Z.of_nat (List.length (a :: b :: c :: l)))))
    with 3%nat by (cbn [List.length]; lia).
  reflexivity.
Qed.

Lemma filled_bounds {A : Type} (suggestions defaults : list A) :
  defaults <> [] ->
  (1 <= List.length
          (PyList.slice_to 3 match suggestions with
                             | [] => defaults
                             | _ :: _ => suggestions
                             end) <= 3)%nat.
Proof.
  intro H. rewrite slice_to_three, length_firstn.
  destruct suggestions as [|s rest].
  - destruct defaults; [contradiction|]. cbn [List.length]. lia.
  - cbn [List.length]. lia.
Qed.

(** Both agents return at least one and at most three suggestions,
    whatever the content. *)
Theorem one_to_three_suggestions (content : string)
    (context : option Context.ContextDict) :
  (1 <= List.length (Luthier._generate_suggestions content context) <= 3)%nat
  /\ (1 <= List.length (JazzTeacher._generate_suggestions content context)
      <= 3)%nat.
Proof.
  unfold Luthier._generate_suggestions, JazzTeacher._generate_suggestions.
  cbv zeta.
  split; apply filled_bounds; discriminate.
Qed.

Lemma incl_cond (b : bool) (l e allowed : list string) :
  incl l allowed -> incl e allowed ->
  incl (if b then l ++ e else l) allowed.
Proof.
  intros Hl He. destruct b; [apply incl_app; assumption | exact Hl].
Qed.

Lemma filled_In (x : string) (suggestions defaults : list string) :
  In x (PyList.slice_to 3 match suggestions with
                          | [] => defaults
                          | _ :: _ => suggestions
                          end) ->
  In x (firstn 3 defaults) \/ In x suggestions.
Proof.
  rewrite slice_to_three. intro H.
  destruct suggestions as [|s rest]; [left; exact H|].
  right. rewrite <- (firstn_skipn 3 (s :: rest)).
  apply in_or_app. left. exact H.
Qed.

(** The teacher's fourth default suggestion is cut off by the slice: no
    content makes it come back. *)
Theorem fourth_default_never_suggested (content : string)
    (context : option Context.ContextDict) :
  ~ In "Recommend jazz standards to learn"%string
       (JazzTeacher._generate_suggestions content context).
Proof.
  unfold JazzTeacher._generate_suggestions. cbv zeta. intro H.
  apply filled_In in H. destruct H as [H | H].
  - cbn in H.
    repeat (destruct H as [H | H]; [discriminate H|]). exact H.
  - revert H.
    match goal with
    | |- In ?x ?l -> False =>
      assert (I : incl l
                    ["Want me to quiz you on chord types?";
                     "Should I show you voicings for this chord?";
                     "Want a practice exercise for this scale?";
                     "Should I show you which chords this scale works over?";
                     "Want some specific licks to practice over this?";
                     "Want a customized plateau-busting practice plan?";
                     "Want me to analyze the chord changes for this tune?"]%string)
    end.
    { repeat apply incl_cond;
        try (intros y Hy; cbn [In app] in Hy |- *; tauto). }
    intro H. apply I in H. cbn in H.
    repeat (destruct H as [H | H]; [discriminate H|]). exact H.
Qed.

(** The luthier's suggestion about wood comes back exactly when the
    lower-cased content contains [wood] (the test for [tonewood] adds
    nothing) and the earlier suggestions leave room for it: [archtop]
    brings two, so that with [archtop] and one of the Fender words or
    [pickup] the slice cuts it off. *)
Theorem wood_suggestion_returned (content : string)
    (context : option Context.ContextDict) :
  let content_lower := lower content in
  In "Should I explain how wood choice affects tone?"%string
     (Luthier._generate_suggestions content context)
  <-> contains "wood" content_lower = true
      /\ (contains "archtop" content_lower = false
          \/ (contains "fender" content_lower
              || contains "telecaster" content_lower
              || contains "stratocaster" content_lower
              || contains "pickup" content_lower)%bool = false).
Proof.
  intro content_lower. unfold Luthier._generate_suggestions.
  cbv zeta. fold content_lower.
  pose proof (tonewood_is_wood content_lower) as Hw.
  destruct (contains "tonewood" content_lower);
    [rewrite (Hw eq_refl) | clear Hw];
    tests; vm_compute; split.
  all: try (intro H;
            first [ split;
                    [reflexivity
                    | first [left; reflexivity | right; reflexivity]]
                  | exfalso;
                    repeat (destruct H as [H | H]; [discriminate H|]);
                    exact H ]).
  all: intros [H G];
    first [ discriminate H
          | destruct G as [G | G]; discriminate G
          | repeat (first [left; reflexivity | right]) ].
Qed.

End SuggestionFacts.
